(** * Gravitational-wave memory strain: the Kathpalia Memory Relation

    A shallow embedding of [kmr_memory_simulation.py] over the real numbers.

    Python floats are read as real numbers, so every arithmetic step is exact:
    rounding, underflow and overflow of binary64 are outside this reading.
    A step that has no real value (a division by zero, a fractional power of
    a negative base) ends the evaluation with [Raise]: it stands for "no real
    number is returned", whatever the interpreter does next (CPython raises
    [ZeroDivisionError] or goes on in complex arithmetic, a NumPy scalar
    stores [inf] or [nan] and goes on).  Where the two readings part, the
    module [Binary64] below runs the same lines on binary64 floats.  The
    script keeps its constants in module globals and [KMR_strain] reads two of
    them ([G] and [c]) besides its seven arguments, so a computation is a
    function of the module state that returns a result and the state it
    leaves. *)

From Stdlib Require Import Floats Reals Lra Lia List ZArith.
Import ListNotations.

Open Scope R_scope.

(** ** Module state *)

(** The names the script binds at module level before it builds [strains]
    (lines 14-32). *)
Record globals : Type := Globals {
  G       : R;        (* gravitational constant [cm^3 g^-1 s^-2] *)
  c       : R;        (* speed of light [cm/s] *)
  Msun    : R;        (* solar mass [g] *)
  Rsun    : R;        (* solar radius [cm] *)
  M_star  : R;        (* stellar mass (disrupted star) *)
  R_star  : R;        (* stellar radius *)
  epsilon : R;        (* ejection anisotropy factor *)
  deltaM  : R;        (* total mass ejected in TDE *)
  D       : R;        (* distance to observer *)
  v_ej    : R;        (* characteristic ejecta velocity *)
  M_pbh   : list R    (* PBH mass grid *)
}.

(** ** Results and computations *)

Inductive exn : Type :=
| ZeroDivisionError   (* x / 0, 0 ** negative *)
| NotReal             (* negative ** fractional: complex in CPython, nan in NumPy *)
| ValueError          (* reduction of an empty array *)
| OverflowError.      (* a float power out of the binary64 range *)

Inductive result (A : Type) : Type :=
| Ok (a : A)
| Raise (e : exn).

Arguments Ok {A} a.
Arguments Raise {A} e.

(** A computation reads and threads the module state. *)
Definition py (A : Type) : Type := globals -> result A * globals.

Definition ret {A} (a : A) : py A := fun s => (Ok a, s).

Definition bind {A B} (m : py A) (k : A -> py B) : py B :=
  fun s =>
    match m s with
    | (Ok a, s') => k a s'
    | (Raise e, s') => (Raise e, s')
    end.

(** Lookup of a module global. *)
Definition glob {A} (field : globals -> A) : py A := fun s => (Ok (field s), s).

Definition lift {A} (r : result A) : py A := fun s => (r, s).

Declare Scope py_scope.
Delimit Scope py_scope with py.
Bind Scope py_scope with py.

Notation "x <- m ;; k" := (bind m (fun x => k))
  (at level 61, m at next level, right associativity) : py_scope.

(** ** Float operators, over the reals *)

(** [x / y] over the reals: the exact quotient, so nothing underflows to zero
    or overflows; a zero divisor has no quotient. *)
Definition float_div (x y : R) : result R :=
  if Req_dec_T y 0 then Raise ZeroDivisionError else Ok (x / y).

(** [x ** y] over the reals.  An exponent that is a whole number is an
    integer power (and [0 ** negative] divides by zero); any other exponent
    needs a base that is not negative: below zero the power has no real value
    and the evaluation ends with [NotReal], where CPython goes on in complex
    arithmetic and a NumPy scalar stores [nan]. *)
Definition float_pow (x y : R) : result R :=
  if Req_dec_T (IZR (Int_part y)) y then
    if Req_dec_T x 0 then
      if Rlt_dec y 0 then Raise ZeroDivisionError else Ok (powerRZ x (Int_part y))
    else Ok (powerRZ x (Int_part y))
  else if Rlt_dec 0 x then Ok (Rpower x y)
  else if Req_dec_T x 0 then
    if Rlt_dec y 0 then Raise ZeroDivisionError else Ok 0
  else Raise NotReal.

(** Binary operators evaluate the left operand, then the right one. *)
Definition binop (f : R -> R -> result R) (a b : py R) : py R :=
  (x <- a ;; y <- b ;; lift (f x y))%py.

Definition mul : py R -> py R -> py R := binop (fun x y => Ok (x * y)).
Definition div : py R -> py R -> py R := binop float_div.
Definition pow : py R -> py R -> py R := binop float_pow.

(** A number or a local variable as an expression. *)
Definition lit (x : R) : py R := ret x.

Coercion lit : R >-> py.

Notation "a * b" := (mul a b) : py_scope.
Notation "a / b" := (div a b) : py_scope.
Notation "a ** b" := (pow a b) (at level 30, right associativity) : py_scope.

(** [np.pi] *)
Definition np_pi : R := PI.

(** ** The Kathpalia Memory Relation (lines 37-61) *)

Definition KMR_strain (M_pbh M_star R_star deltaM epsilon D v_ej : R) : py R :=
  (Rt <- R_star * (M_pbh / M_star) ** (1 / 3) ;;           (* tidal radius *)
   Rg <- 2 * glob G * M_pbh / glob c ** 2 ;;                (* gravitational radius *)
   strain <- 1e40 * (8 * epsilon / (3 * np_pi)) * (deltaM / M_pbh) *
             (Rt / Rg) ** (-1) * (v_ej / glob c) ** 2 * (glob G / (glob c ** 4)) *
             (M_pbh / D) ;;
   ret strain)%py.

(** ** The sweep driver *)

(** NumPy's [linspace(start, stop, num)] with its default [endpoint=True],
    after the library's own definition (it is not code of the script): the
    samples [arange(0, num) * step + start] with [step = delta / div], the
    last one overwritten by [stop]. *)
Definition np_linspace (start stop : R) (num : nat) : list R :=
  let div := (num - 1)%nat in
  let delta := stop - start in
  let y := map INR (seq 0 num) in
  let y := if (0 <? div)%nat then map (fun i => i * (delta / INR div)) y
           else map (fun i => i * delta) y in
  let y := map (fun v => v + start) y in
  if (1 <? num)%nat then removelast y ++ [stop] else y.

(** NumPy's [logspace(start, stop, num)] with its default base: ten to the
    power of the linear samples (the base is positive, so the power is
    [exp (y * ln 10)]). *)
Definition np_logspace (start stop : R) (num : nat) : list R :=
  map (fun y => Rpower 10 y) (np_linspace start stop num).

(** The module state after lines 14-32. *)
Definition module_globals : globals :=
  let G := 6.6743e-8 in
  let c := 2.9979e10 in
  let Msun := 2.0e33 in
  let Rsun := 7.0e10 in
  let M_star := Msun in
  let R_star := Rsun in
  let epsilon := 0.02 in
  let deltaM := 0.001 * Msun in
  let D := 3.1e26 in
  let v_ej := 0.1 * c in
  let M_pbh := np_logspace 20 25 200 in
  Globals G c Msun Rsun M_star R_star epsilon deltaM D v_ej M_pbh.

(** A list comprehension [[f(x) for x in l]]: the calls run in list order.
    The first call with no real result leaves the comprehension without a
    list of real numbers (in CPython the exception ends the loop; with NumPy
    scalars the loop goes on and the array holds [inf] or [nan]). *)
Fixpoint comprehension {A B} (f : A -> py B) (l : list A) : py (list B) :=
  match l with
  | [] => ret []
  | x :: t => (y <- f x ;; ys <- comprehension f t ;; ret (y :: ys))%py
  end.

(** The call of line 66, its six parameters looked up in the module state. *)
Definition call_KMR_strain (m : R) : py R :=
  (a1 <- glob M_star ;; a2 <- glob R_star ;; a3 <- glob deltaM ;;
   a4 <- glob epsilon ;; a5 <- glob D ;; a6 <- glob v_ej ;;
   KMR_strain m a1 a2 a3 a4 a5 a6)%py.

(** Line 66. *)
Definition strains : py (list R) :=
  (grid <- glob M_pbh ;; comprehension call_KMR_strain grid)%py.

(** [np.min] and [np.max] of a one-dimensional array. *)
Definition np_min (a : list R) : result R :=
  match a with
  | [] => Raise ValueError
  | x :: t => Ok (fold_left Rmin t x)
  end.

Definition np_max (a : list R) : result R :=
  match a with
  | [] => Raise ValueError
  | x :: t => Ok (fold_left Rmax t x)
  end.

(** The two numbers of the diagnostic printout (line 69). *)
Definition strain_range : py (R * R) :=
  (s <- strains ;; lo <- lift (np_min s) ;; hi <- lift (np_max s) ;; ret (lo, hi))%py.

(** ** The same lines on binary64 floats *)

(** What CPython does with the floats of lines 54-60 when [KMR_strain] is
    called with Python floats: IEEE binary64 products and quotients, the
    zero test of a float division, and the special cases that [float ** float]
    sorts out before it calls the C library's [pow].  That library function is
    not part of the language: it is the argument [libm_pow]. *)

Set Warnings "-inexact-float".

Module Binary64.

Local Open Scope bool_scope.
Local Open Scope float_scope.

Inductive outcome : Type :=
| Float (x : float)       (* a Python float, [inf] and [nan] included *)
| LeavesFloats            (* a negative base under a fractional power: the
                             rest runs in complex arithmetic, not followed here *)
| Exception (e : exn).

Definition and_then (m : outcome) (k : float -> outcome) : outcome :=
  match m with
  | Float x => k x
  | LeavesFloats => LeavesFloats
  | Exception e => Exception e
  end.

Notation "x <- m ;; k" := (and_then m (fun x => k))
  (at level 61, m at next level, right associativity) : float_scope.

(** [x / y]: a divisor equal to zero raises, anything else is the IEEE
    quotient (an overflow is [inf], an underflow is [0.0]). *)
Definition truediv (x y : float) : outcome :=
  if y =? 0 then Exception ZeroDivisionError else Float (x / y).

(** The finite float [m * 2 ^ e] is a whole number, resp. an odd one. *)
Definition integer_valued (y : float) : bool :=
  match Prim2SF y with
  | S754_zero _ => true
  | S754_finite _ m e =>
      match e with
      | Zneg k => Z.eqb (Z.modulo (Zpos m) (Z.pow 2 (Zpos k))) 0
      | _ => true
      end
  | _ => false
  end.

Definition odd_integer (y : float) : bool :=
  match Prim2SF y with
  | S754_finite _ m e =>
      match e with
      | Z0 => Z.odd (Zpos m)
      | Zpos _ => false
      | Zneg k =>
          Z.eqb (Z.modulo (Zpos m) (Z.pow 2 (Zpos k))) 0 &&
          Z.odd (Z.div (Zpos m) (Z.pow 2 (Zpos k)))
      end
  | _ => false
  end.

Definition copysign_zero (x : float) : float :=
  if PrimFloat.get_sign x then PrimFloat.neg_zero else PrimFloat.zero.

(** [x ** y], after [float_pow] of CPython: the cases with a zero, infinite or
    [nan] operand and with a negative base first; then [libm_pow].  The
    library's [errno] is not modelled: an infinite result stands for its
    range error, which CPython turns into [OverflowError]. *)
Definition float_pow (libm_pow : float -> float -> float) (x y : float) : outcome :=
  if y =? 0 then Float 1
  else if PrimFloat.is_nan x then Float x
  else if PrimFloat.is_nan y then Float (if x =? 1 then 1 else y)
  else if PrimFloat.is_infinity y then
    if PrimFloat.abs x =? 1 then Float 1
    else if Bool.eqb (0 <? y) (1 <? PrimFloat.abs x) then Float (PrimFloat.abs y)
    else Float 0
  else if PrimFloat.is_infinity x then
    if 0 <? y then Float (if odd_integer y then x else PrimFloat.abs x)
    else Float (if odd_integer y then copysign_zero x else 0)
  else if x =? 0 then
    if y <? 0 then Exception ZeroDivisionError
    else Float (if odd_integer y then x else 0)
  else if (x <? 0) && negb (integer_valued y) then LeavesFloats
  else
    let negate := (x <? 0) && odd_integer y in
    let ax := PrimFloat.abs x in
    if ax =? 1 then Float (if negate then -1 else 1)
    else
      let r := libm_pow ax y in
      if PrimFloat.is_infinity r then Exception OverflowError
      else Float (if negate then - r else r).

(** The module constants of lines 14-15 and [np.pi]. *)
Definition G : float := 6.6743e-8.
Definition c : float := 2.9979e10.
Definition np_pi : float := 3.141592653589793.

(** Lines 54-61, operand by operand in the order Python evaluates them. *)
Definition KMR_strain (libm_pow : float -> float -> float)
    (M_pbh M_star R_star deltaM epsilon D v_ej : float) : outcome :=
  q <- truediv M_pbh M_star ;;
  t <- truediv 1 3 ;;
  p <- float_pow libm_pow q t ;;
  let Rt := R_star * p in
  c2 <- float_pow libm_pow c 2 ;;
  Rg <- truediv (2 * G * M_pbh) c2 ;;
  b <- truediv (8 * epsilon) (3 * np_pi) ;;
  d <- truediv deltaM M_pbh ;;
  r <- truediv Rt Rg ;;
  i <- float_pow libm_pow r (-1) ;;
  w <- truediv v_ej c ;;
  w2 <- float_pow libm_pow w 2 ;;
  c4 <- float_pow libm_pow c 4 ;;
  g <- truediv G c4 ;;
  m <- truediv M_pbh D ;;
  Float (1e40 * b * d * i * w2 * g * m).

End Binary64.

(** ** The closed form *)

(** The product of line 59-60 in plain real arithmetic, for the constants
    [G0] and [c0]. *)
Definition tidal_radius (M_pbh M_star R_star : R) : R :=
  R_star * Rpower (M_pbh / M_star) (1 / 3).

Definition gravitational_radius (G0 c0 M_pbh : R) : R :=
  2 * G0 * M_pbh / c0 ^ 2.

Definition strain_product (G0 c0 M_pbh M_star R_star deltaM epsilon D v_ej : R) : R :=
  1e40 * (8 * epsilon / (3 * PI)) * (deltaM / M_pbh) *
  / (tidal_radius M_pbh M_star R_star / gravitational_radius G0 c0 M_pbh) *
  (v_ej / c0) ^ 2 * (G0 / c0 ^ 4) * (M_pbh / D).

(** The strain of a mass under the parameters of the script. *)
Definition default_strain (m : R) : R :=
  strain_product (G module_globals) (c module_globals) m
    (M_star module_globals) (R_star module_globals) (deltaM module_globals)
    (epsilon module_globals) (D module_globals) (v_ej module_globals).

(** The strain at the defaults of the script and [M_pbh = 1e22] g, to twelve
    significant digits.  Neither the script nor its specification writes the
    number down; [default_strain_enclosure] derives it from the closed form. *)
Definition golden_strain : R := 1.12296884033e-22.

(** The exponent of the grid point of index [i] in a grid of [num] points
    from [10 ** start] to [10 ** stop]. *)
Definition grid_exponent (start stop : R) (num i : nat) : R :=
  INR i * ((stop - start) / INR (num - 1)) + start.

(** The declared domain of the strain model: a positive black-hole mass and
    a parameter bundle with positive masses, radius and distance, an
    anisotropy factor in (0, 1] and an ejecta velocity below [c]. *)
Record valid_inputs (M Ms Rs dM eps Dist v : R) : Prop := ValidInputs {
  valid_M_pbh   : 0 < M;
  valid_M_star  : 0 < Ms;
  valid_R_star  : 0 < Rs;
  valid_deltaM  : 0 < dM;
  valid_epsilon : 0 < eps <= 1;
  valid_D       : 0 < Dist;
  valid_v_ej    : 0 < v < c module_globals
}.


(** The factor of [M_pbh ^ (2/3)] in the power-law form. *)
Definition mass_coefficient (G0 c0 Ms Rs dM eps Dist v : R) : R :=
  1e40 * 16 * eps * dM * G0 ^ 2 * v ^ 2 * Rpower Ms (1 / 3) /
  (3 * PI * c0 ^ 8 * Rs * Dist).

(** The strain of a mass under the parameters and constants of a state. *)
Definition state_strain (s : globals) (m : R) : R :=
  strain_product (G s) (c s) m (M_star s) (R_star s) (deltaM s) (epsilon s)
    (D s) (v_ej s).

(** What a sweep needs of the state it runs in. *)
Definition sweep_ready (s : globals) : Prop :=
  G s <> 0 /\ c s <> 0 /\ 0 < M_star s /\ R_star s <> 0 /\ D s <> 0.

(** The horizontal line of line 77. *)
Definition sensitivity : R := 1e-23.

(** The limits of the strain axis, line 86. *)
Definition ylim : R * R := (1e-25, 1e-20).

(** ** Shapes of a sequence *)

(** [l] is strictly increasing (resp. decreasing) between the indices [lo]
    and [hi]. *)
Definition increasing_between (l : list R) (lo hi : nat) : Prop :=
  forall i j, (lo <= i)%nat -> (i < j)%nat -> (j <= hi)%nat ->
    nth i l 0 < nth j l 0.

Definition decreasing_between (l : list R) (lo hi : nat) : Prop :=
  forall i j, (lo <= i)%nat -> (i < j)%nat -> (j <= hi)%nat ->
    nth j l 0 < nth i l 0.

Definition strictly_increasing (l : list R) : Prop :=
  increasing_between l 0 (length l - 1).

Definition strictly_decreasing (l : list R) : Prop :=
  decreasing_between l 0 (length l - 1).

Definition monotonic (l : list R) : Prop :=
  strictly_increasing l \/ strictly_decreasing l.

(** One maximum, at an index that is neither the first nor the last. *)
Definition single_interior_maximum (l : list R) : Prop :=
  exists k, (0 < k)%nat /\ (k < length l - 1)%nat /\
    increasing_between l 0 k /\ decreasing_between l k (length l - 1).

(** ** Running computations *)

(** [m] returns [v] from state [s] and leaves the state as it was. *)
Definition evals {A} (m : py A) (s : globals) (v : A) : Prop := m s = (Ok v, s).

(** [m] raises [e] from state [s] and leaves the state as it was. *)
Definition raises {A} (m : py A) (s : globals) (e : exn) : Prop := m s = (Raise e, s).

(** [m] never writes the module state. *)
Definition readonly {A} (m : py A) : Prop := forall s, snd (m s) = s.

(** [m] reads nothing of the module state but [G] and [c]: two states that
    agree on them give the same result. *)
Definition reads_only_G_c {A} (m : py A) : Prop :=
  forall s s', G s = G s' -> c s = c s' -> fst (m s) = fst (m s').

(** ** Evaluation rules *)

Section Rules.

Variable s : globals.

Lemma evals_ret {A} (a : A) : evals (ret a) s a.
Proof. reflexivity. Qed.

Lemma evals_lit (x : R) : evals (lit x) s x.
Proof. reflexivity. Qed.

Lemma evals_glob {A} (f : globals -> A) : evals (glob f) s (f s).
Proof. reflexivity. Qed.

Lemma evals_bind {A B} (m : py A) (k : A -> py B) a b :
  evals m s a -> evals (k a) s b -> evals (bind m k) s b.
Proof. unfold evals, bind. intros -> Hk. exact Hk. Qed.

Lemma raises_bind_l {A B} (m : py A) (k : A -> py B) e :
  raises m s e -> raises (bind m k) s e.
Proof. unfold raises, bind. intros ->. reflexivity. Qed.

Lemma raises_bind_r {A B} (m : py A) (k : A -> py B) a e :
  evals m s a -> raises (k a) s e -> raises (bind m k) s e.
Proof. unfold evals, raises, bind. intros -> Hk. exact Hk. Qed.

Lemma evals_binop f a b x y v :
  evals a s x -> evals b s y -> f x y = Ok v -> evals (binop f a b) s v.
Proof.
  intros Ha Hb Hf. unfold binop.
  eapply evals_bind; [exact Ha|]. eapply evals_bind; [exact Hb|].
  unfold evals, lift. now rewrite Hf.
Qed.

Lemma raises_binop f a b x y e :
  evals a s x -> evals b s y -> f x y = Raise e -> raises (binop f a b) s e.
Proof.
  intros Ha Hb Hf. unfold binop.
  eapply raises_bind_r; [exact Ha|]. eapply raises_bind_r; [exact Hb|].
  unfold raises, lift. now rewrite Hf.
Qed.

Lemma raises_binop_l f a b e : raises a s e -> raises (binop f a b) s e.
Proof. intros Ha. unfold binop. now apply raises_bind_l. Qed.

Lemma raises_binop_r f a b x e :
  evals a s x -> raises b s e -> raises (binop f a b) s e.
Proof.
  intros Ha Hb. unfold binop.
  eapply raises_bind_r; [exact Ha|]. now apply raises_bind_l.
Qed.

Lemma evals_mul a b x y :
  evals a s x -> evals b s y -> evals (a * b)%py s (x * y).
Proof. intros Ha Hb. now apply (evals_binop _ a b x y). Qed.

Lemma float_div_ok x y : y <> 0 -> float_div x y = Ok (x / y).
Proof. intros Hy. unfold float_div. now destruct (Req_dec_T y 0). Qed.

Lemma float_div_zero x : float_div x 0 = Raise ZeroDivisionError.
Proof. unfold float_div. destruct (Req_dec_T 0 0); [reflexivity | contradiction]. Qed.

Lemma evals_div a b x y :
  evals a s x -> evals b s y -> y <> 0 -> evals (a / b)%py s (x / y).
Proof.
  intros Ha Hb Hy. apply (evals_binop _ a b x y); auto using float_div_ok.
Qed.

End Rules.

(** ** The power operator at the exponents of the script *)

Lemma Int_part_IZR (z : Z) : Int_part (IZR z) = z.
Proof. symmetry. apply Int_part_spec. lra. Qed.

Lemma float_pow_int (x : R) (z : Z) :
  x <> 0 \/ (0 <= z)%Z -> float_pow x (IZR z) = Ok (powerRZ x z).
Proof.
  intros H. unfold float_pow. rewrite Int_part_IZR.
  destruct (Req_dec_T (IZR z) (IZR z)) as [_|N]; [|contradiction].
  destruct (Req_dec_T x 0) as [E|_]; [|reflexivity].
  destruct (Rlt_dec (IZR z) 0) as [L|_]; [|reflexivity].
  exfalso. destruct H as [H|H]; [contradiction|].
  apply IZR_le in H. lra.
Qed.

Lemma third_not_whole : IZR (Int_part (1 / 3)) <> 1 / 3.
Proof.
  replace (Int_part (1 / 3)) with 0%Z by (apply Int_part_spec; lra).
  lra.
Qed.

Lemma float_pow_third_pos (x : R) :
  0 < x -> float_pow x (1 / 3) = Ok (Rpower x (1 / 3)).
Proof.
  intros H. unfold float_pow.
  destruct (Req_dec_T _ (1 / 3)) as [E|_]; [now apply third_not_whole in E|].
  destruct (Rlt_dec 0 x); [reflexivity|contradiction].
Qed.

Lemma float_pow_third_zero : float_pow 0 (1 / 3) = Ok 0.
Proof.
  unfold float_pow.
  destruct (Req_dec_T _ (1 / 3)) as [E|_]; [now apply third_not_whole in E|].
  destruct (Rlt_dec 0 0) as [L|_]; [lra|].
  destruct (Req_dec_T 0 0) as [_|N]; [|contradiction].
  destruct (Rlt_dec (1 / 3) 0) as [L|_]; [lra|reflexivity].
Qed.

Lemma float_pow_third_neg (x : R) :
  x < 0 -> float_pow x (1 / 3) = Raise NotReal.
Proof.
  intros H. unfold float_pow.
  destruct (Req_dec_T _ (1 / 3)) as [E|_]; [now apply third_not_whole in E|].
  destruct (Rlt_dec 0 x) as [L|_]; [lra|].
  destruct (Req_dec_T x 0) as [E|_]; [lra|reflexivity].
Qed.

Lemma float_pow_2 (x : R) : float_pow x 2 = Ok (x ^ 2).
Proof. rewrite (float_pow_int x 2) by (right; lia). reflexivity. Qed.

Lemma float_pow_4 (x : R) : float_pow x 4 = Ok (x ^ 4).
Proof. rewrite (float_pow_int x 4) by (right; lia). reflexivity. Qed.

Lemma float_pow_m1 (x : R) : x <> 0 -> float_pow x (-1) = Ok (/ x).
Proof.
  intros H. rewrite (float_pow_int x (-1)) by now left.
  simpl. now rewrite Rmult_1_r.
Qed.


Section PowRules.

Variable s : globals.

Lemma evals_pow_third a x :
  evals a s x -> 0 < x -> evals (a ** (1 / 3))%py s (Rpower x (1 / 3)).
Proof.
  intros Ha Hx. apply (evals_binop s _ a _ x (1 / 3)); auto using float_pow_third_pos.
  apply evals_div; auto using evals_lit; lra.
Qed.

Lemma evals_pow_2 a x : evals a s x -> evals (a ** 2)%py s (x ^ 2).
Proof.
  intros Ha. apply (evals_binop s _ a _ x 2); auto using float_pow_2, evals_lit.
Qed.

Lemma evals_pow_4 a x : evals a s x -> evals (a ** 4)%py s (x ^ 4).
Proof.
  intros Ha. apply (evals_binop s _ a _ x 4); auto using float_pow_4, evals_lit.
Qed.

Lemma evals_pow_m1 a x : evals a s x -> x <> 0 -> evals (a ** (-1))%py s (/ x).
Proof.
  intros Ha Hx. apply (evals_binop s _ a _ x (-1)); auto using float_pow_m1, evals_lit.
Qed.

End PowRules.

(** Runs the operators that cannot fail and leaves the side conditions of
    the others. *)
Ltac py_run :=
  repeat first
    [ apply evals_ret | apply evals_lit | apply evals_glob
    | apply evals_mul | apply evals_pow_2 | apply evals_pow_4
    | apply evals_div | apply evals_pow_third | apply evals_pow_m1
    | eapply evals_bind ].

(** ** Facts about the two radii *)

Lemma tidal_radius_pos M Ms Rs : 0 < Rs -> 0 < tidal_radius M Ms Rs.
Proof.
  intros H. unfold tidal_radius, Rpower.
  apply Rmult_lt_0_compat; [exact H | apply exp_pos].
Qed.

Lemma tidal_radius_neq_0 M Ms Rs : Rs <> 0 -> tidal_radius M Ms Rs <> 0.
Proof.
  intros H. unfold tidal_radius, Rpower.
  apply Rmult_integral_contrapositive_currified; [exact H|].
  apply Rgt_not_eq, exp_pos.
Qed.

Lemma gravitational_radius_neq_0 G0 c0 M :
  G0 <> 0 -> c0 <> 0 -> M <> 0 -> gravitational_radius G0 c0 M <> 0.
Proof.
  intros HG Hc HM. unfold gravitational_radius, Rdiv.
  assert (H2 : 2 <> 0) by lra.
  repeat apply Rmult_integral_contrapositive_currified; auto.
  apply Rinv_neq_0_compat, pow_nonzero, Hc.
Qed.

Lemma gravitational_radius_pos G0 c0 M :
  0 < G0 -> c0 <> 0 -> 0 < M -> 0 < gravitational_radius G0 c0 M.
Proof.
  intros HG Hc HM. unfold gravitational_radius.
  apply Rdiv_lt_0_compat.
  - repeat apply Rmult_lt_0_compat; lra.
  - assert (H : c0 ^ 2 = c0 * c0) by ring. rewrite H. nra.
Qed.

Lemma radius_ratio_neq_0 G0 c0 M Ms Rs :
  G0 <> 0 -> c0 <> 0 -> M <> 0 -> Rs <> 0 ->
  tidal_radius M Ms Rs / gravitational_radius G0 c0 M <> 0.
Proof.
  intros HG Hc HM HR. unfold Rdiv.
  apply Rmult_integral_contrapositive_currified.
  - now apply tidal_radius_neq_0.
  - apply Rinv_neq_0_compat. now apply gravitational_radius_neq_0.
Qed.

(** ** [KMR_strain] on its domain *)

(** On a positive mass, with a positive stellar mass and a stellar radius and
    a distance that are not zero, the function returns the closed form and
    leaves the module state alone.  The constants [G] and [c] of the state
    only have to be nonzero. *)
Lemma KMR_strain_evals (s : globals) (M Ms Rs dM eps Dist v : R) :
  G s <> 0 -> c s <> 0 ->
  0 < M -> 0 < Ms -> Rs <> 0 -> Dist <> 0 ->
  evals (KMR_strain M Ms Rs dM eps Dist v) s
        (strain_product (G s) (c s) M Ms Rs dM eps Dist v).
Proof.
  intros HG Hc HM HMs HRs HD.
  assert (Hc2 : c s ^ 2 <> 0) by now apply pow_nonzero.
  assert (Hc4 : c s ^ 4 <> 0) by now apply pow_nonzero.
  assert (HM0 : M <> 0) by lra.
  assert (HMs0 : Ms <> 0) by lra.
  assert (Hpi : 3 * np_pi <> 0)
    by (unfold np_pi; generalize PI_RGT_0; lra).
  assert (Hq : 0 < M / Ms) by now apply Rdiv_lt_0_compat.
  pose proof (gravitational_radius_neq_0 (G s) (c s) M HG Hc HM0) as HRg.
  pose proof (radius_ratio_neq_0 (G s) (c s) M Ms Rs HG Hc HM0 HRs) as HRatio.
  unfold KMR_strain, strain_product.
  py_run; auto.
Qed.

(** ** The constants of the script *)

Lemma G_module : G module_globals = 6.6743e-8.
Proof. reflexivity. Qed.

Lemma c_module : c module_globals = 2.9979e10.
Proof. reflexivity. Qed.

Lemma G_module_pos : 0 < G module_globals.
Proof. rewrite G_module. lra. Qed.

Lemma c_module_pos : 0 < c module_globals.
Proof. rewrite c_module. lra. Qed.

(** The defaults of the script with the mass 1e22 g. *)
Lemma default_inputs_valid :
  valid_inputs 1e22 2.0e33 7.0e10 2.0e30 0.02 3.1e26 2.9979e9.
Proof. split; rewrite ?c_module; lra. Qed.

(** ** Algebra of the closed form *)

Section ClosedForm.

Variables G0 c0 : R.
Hypothesis G0_pos : 0 < G0.
Hypothesis c0_pos : 0 < c0.

Lemma strain_product_pos M Ms Rs dM eps Dist v :
  0 < M -> 0 < Rs -> 0 < dM -> 0 < eps -> 0 < Dist -> 0 < v ->
  0 < strain_product G0 c0 M Ms Rs dM eps Dist v.
Proof.
  intros HM HRs HdM Heps HD Hv. unfold strain_product.
  assert (Hc0 : c0 <> 0) by lra.
  assert (H1 : 0 < 1e40) by lra.
  assert (H2 : 0 < 8 * eps / (3 * PI))
    by (apply Rdiv_lt_0_compat; [lra | generalize PI_RGT_0; lra]).
  assert (H3 : 0 < dM / M) by now apply Rdiv_lt_0_compat.
  assert (H4 : 0 < / (tidal_radius M Ms Rs / gravitational_radius G0 c0 M)).
  { apply Rinv_0_lt_compat, Rdiv_lt_0_compat.
    - now apply tidal_radius_pos.
    - now apply gravitational_radius_pos. }
  assert (H5 : 0 < (v / c0) ^ 2) by (apply pow_lt; now apply Rdiv_lt_0_compat).
  assert (H6 : 0 < G0 / c0 ^ 4)
    by (apply Rdiv_lt_0_compat; [exact G0_pos | now apply pow_lt]).
  assert (H7 : 0 < M / Dist) by now apply Rdiv_lt_0_compat.
  do 6 (apply Rmult_lt_0_compat; [|assumption]). exact H1.
Qed.

(** Linear in the ejected mass and in the anisotropy factor. *)
Lemma strain_product_deltaM k M Ms Rs dM eps Dist v :
  strain_product G0 c0 M Ms Rs (k * dM) eps Dist v =
  k * strain_product G0 c0 M Ms Rs dM eps Dist v.
Proof. unfold strain_product, Rdiv. ring. Qed.

Lemma strain_product_epsilon k M Ms Rs dM eps Dist v :
  strain_product G0 c0 M Ms Rs dM (k * eps) Dist v =
  k * strain_product G0 c0 M Ms Rs dM eps Dist v.
Proof. unfold strain_product, Rdiv. ring. Qed.

(** Inverse in the distance. *)
Lemma strain_product_D k M Ms Rs dM eps Dist v :
  strain_product G0 c0 M Ms Rs dM eps (k * Dist) v =
  / k * strain_product G0 c0 M Ms Rs dM eps Dist v.
Proof. unfold strain_product, Rdiv. rewrite (Rinv_mult k Dist). ring. Qed.

(** The two radii under a rescaling of the black-hole mass. *)
Lemma tidal_radius_scale k M Ms Rs :
  0 < k -> 0 < M -> 0 < Ms ->
  tidal_radius (k * M) Ms Rs = Rpower k (1 / 3) * tidal_radius M Ms Rs.
Proof.
  intros Hk HM HMs. unfold tidal_radius.
  replace (k * M / Ms) with (k * (M / Ms)) by (unfold Rdiv; ring).
  rewrite <- Rpower_mult_distr; [ring | exact Hk | now apply Rdiv_lt_0_compat].
Qed.

Lemma gravitational_radius_scale k M :
  gravitational_radius G0 c0 (k * M) = k * gravitational_radius G0 c0 M.
Proof. unfold gravitational_radius, Rdiv. ring. Qed.

Lemma Rpower_two_thirds k : 0 < k -> k * / Rpower k (1 / 3) = Rpower k (2 / 3).
Proof.
  intros Hk. rewrite <- (Rpower_1 k Hk) at 1. rewrite <- Rpower_Ropp, <- Rpower_plus.
  f_equal. lra.
Qed.

(** The strain goes as the power 2/3 of the black-hole mass. *)
Lemma strain_product_M k M Ms Rs dM eps Dist v :
  0 < k -> 0 < M -> 0 < Ms -> Rs <> 0 ->
  strain_product G0 c0 (k * M) Ms Rs dM eps Dist v =
  Rpower k (2 / 3) * strain_product G0 c0 M Ms Rs dM eps Dist v.
Proof.
  intros Hk HM HMs HRs. unfold strain_product.
  rewrite tidal_radius_scale, gravitational_radius_scale by assumption.
  rewrite <- (Rpower_two_thirds k Hk).
  assert (Hp : Rpower k (1 / 3) <> 0) by (unfold Rpower; apply Rgt_not_eq, exp_pos).
  assert (Ht : tidal_radius M Ms Rs <> 0) by now apply tidal_radius_neq_0.
  assert (Hg : gravitational_radius G0 c0 M <> 0)
    by (apply gravitational_radius_neq_0; lra).
  assert (Hc0 : c0 <> 0) by lra.
  assert (HM0 : M <> 0) by lra.
  assert (Hk0 : k <> 0) by lra.
  generalize PI_neq0; intros Hpi.
  set (T := tidal_radius M Ms Rs) in *.
  set (Rg := gravitational_radius G0 c0 M) in *.
  set (P := Rpower k (1 / 3)) in *.
  unfold Rdiv. set (iD := / Dist). clearbody T Rg P iD.
  field. repeat split; assumption.
Qed.

Lemma strain_product_increasing M1 M2 Ms Rs dM eps Dist v :
  0 < M1 -> M1 < M2 -> 0 < Ms -> 0 < Rs -> 0 < dM -> 0 < eps -> 0 < Dist -> 0 < v ->
  strain_product G0 c0 M1 Ms Rs dM eps Dist v <
  strain_product G0 c0 M2 Ms Rs dM eps Dist v.
Proof.
  intros H1 H12 HMs HRs HdM Heps HD Hv.
  assert (Hk : 1 < M2 / M1).
  { apply (Rmult_lt_reg_r M1); [lra|].
    unfold Rdiv. rewrite Rmult_assoc, Rinv_l; lra. }
  replace M2 with (M2 / M1 * M1) by (field; lra).
  rewrite strain_product_M; try lra.
  pose proof (strain_product_pos M1 Ms Rs dM eps Dist v H1 HRs HdM Heps HD Hv) as Hpos.
  assert (Hp : 1 < Rpower (M2 / M1) (2 / 3)).
  { rewrite <- (Rpower_O (M2 / M1)) at 1 by lra. apply Rpower_lt; lra. }
  nra.
Qed.

End ClosedForm.

(** ** The mass grid *)

Section Grid.

Variables start stop : R.
Variable num : nat.
Hypothesis num_gt_1 : (1 < num)%nat.

Lemma np_linspace_samples :
  np_linspace start stop num = map (grid_exponent start stop num) (seq 0 num).
Proof.
  unfold np_linspace, grid_exponent.
  destruct (Nat.ltb_spec 0 (num - 1)) as [Hn|]; [|lia].
  destruct (Nat.ltb_spec 1 num) as [_|]; [|lia].
  set (n := (num - 1)%nat) in *.
  replace num with (S n) by (unfold n; lia).
  rewrite !map_map, seq_S, !map_app. cbn [map]. rewrite removelast_last.
  f_equal. f_equal. cbn [Nat.add].
  assert (INR n <> 0) by (apply not_0_INR; lia).
  field. assumption.
Qed.

Lemma np_logspace_samples :
  np_logspace start stop num =
  map (fun i => Rpower 10 (grid_exponent start stop num i)) (seq 0 num).
Proof. unfold np_logspace. now rewrite np_linspace_samples, map_map. Qed.

Lemma np_logspace_length : length (np_logspace start stop num) = num.
Proof. now rewrite np_logspace_samples, length_map, length_seq. Qed.

Lemma np_logspace_nth i :
  (i < num)%nat ->
  nth i (np_logspace start stop num) 0 = Rpower 10 (grid_exponent start stop num i).
Proof.
  intros Hi. rewrite np_logspace_samples.
  rewrite (nth_indep _ 0 (Rpower 10 (grid_exponent start stop num 0)))
    by now rewrite length_map, length_seq.
  rewrite (map_nth (fun i => Rpower 10 (grid_exponent start stop num i))).
  now rewrite seq_nth.
Qed.

Lemma np_logspace_positive m :
  In m (np_logspace start stop num) -> 0 < m.
Proof.
  rewrite np_logspace_samples, in_map_iff. intros (i & <- & _).
  unfold Rpower. apply exp_pos.
Qed.

Lemma np_logspace_first : nth 0 (np_logspace start stop num) 0 = Rpower 10 start.
Proof.
  rewrite np_logspace_nth by lia. f_equal. unfold grid_exponent. simpl. lra.
Qed.

Lemma np_logspace_last :
  nth (num - 1) (np_logspace start stop num) 0 = Rpower 10 stop.
Proof.
  rewrite np_logspace_nth by lia. f_equal. unfold grid_exponent.
  assert (INR (num - 1) <> 0) by (apply not_0_INR; lia).
  field. assumption.
Qed.

Hypothesis start_lt_stop : start < stop.

Lemma grid_exponent_increasing i j :
  (i < j)%nat -> grid_exponent start stop num i < grid_exponent start stop num j.
Proof.
  intros Hij. unfold grid_exponent.
  assert (Hd : 0 < INR (num - 1)) by (apply lt_0_INR; lia).
  assert (Hs : 0 < (stop - start) / INR (num - 1))
    by (apply Rdiv_lt_0_compat; lra).
  apply lt_INR in Hij. nra.
Qed.

Lemma np_logspace_increasing : strictly_increasing (np_logspace start stop num).
Proof.
  unfold strictly_increasing, increasing_between.
  rewrite np_logspace_length. intros i j _ Hij Hj.
  rewrite !np_logspace_nth by lia.
  apply Rpower_lt; [lra|]. now apply grid_exponent_increasing.
Qed.

End Grid.

(** The grid of the script. *)
Lemma M_pbh_module : M_pbh module_globals = np_logspace 20 25 200.
Proof. reflexivity. Qed.

Lemma Rpower_10_nat (n : nat) : Rpower 10 (INR n) = 10 ^ n.
Proof. apply Rpower_pow. lra. Qed.

(** ** List comprehensions *)

Lemma evals_comprehension {A B} (f : A -> py B) (g : A -> B) s (l : list A) :
  (forall x, In x l -> evals (f x) s (g x)) ->
  evals (comprehension f l) s (map g l).
Proof.
  induction l as [|x t IH]; intros H; simpl.
  - apply evals_ret.
  - eapply evals_bind; [apply H; now left|].
    eapply evals_bind; [apply IH; intros y Hy; apply H; now right|].
    apply evals_ret.
Qed.

Lemma nth_map_in {A} (g : A -> R) (l : list A) (d : A) i :
  (i < length l)%nat -> nth i (map g l) 0 = g (nth i l d).
Proof.
  intros Hi. rewrite (nth_indep _ 0 (g d)) by now rewrite length_map.
  apply map_nth.
Qed.

(** ** Extremes of an increasing sequence *)

Lemma fold_left_Rmin_lower (t : list R) (x : R) :
  (forall y, In y t -> x <= y) -> fold_left Rmin t x = x.
Proof.
  revert x. induction t as [|a t IH]; intros x H; simpl; [reflexivity|].
  rewrite Rmin_left by (apply H; now left).
  apply IH. intros y Hy. apply H. now right.
Qed.

Lemma increasing_tail (x : R) (t : list R) :
  strictly_increasing (x :: t) -> strictly_increasing t.
Proof.
  unfold strictly_increasing, increasing_between. simpl.
  intros H i j Hi Hij Hj.
  apply (H (S i) (S j)); lia.
Qed.

Lemma increasing_head (x : R) (t : list R) y :
  strictly_increasing (x :: t) -> In y t -> x < y.
Proof.
  unfold strictly_increasing, increasing_between. simpl.
  intros H Hy. destruct (In_nth t y 0 Hy) as (n & Hn & <-).
  apply (H 0%nat (S n)); lia.
Qed.

Lemma np_min_increasing (l : list R) :
  l <> [] -> strictly_increasing l -> np_min l = Ok (nth 0 l 0).
Proof.
  destruct l as [|x t]; [contradiction|]. intros _ H. simpl.
  f_equal. apply fold_left_Rmin_lower.
  intros y Hy. left. now apply (increasing_head x t).
Qed.

Lemma fold_left_Rmax_last (t : list R) (x : R) :
  strictly_increasing (x :: t) -> fold_left Rmax t x = nth (length t) (x :: t) 0.
Proof.
  revert x. induction t as [|a t IH]; intros x H; [reflexivity|].
  cbn [fold_left].
  rewrite Rmax_right by (left; apply (increasing_head x (a :: t)); [exact H | now left]).
  rewrite IH by now apply increasing_tail in H.
  reflexivity.
Qed.

Lemma np_max_increasing (l : list R) :
  l <> [] -> strictly_increasing l -> np_max l = Ok (nth (length l - 1) l 0).
Proof.
  destruct l as [|x t]; [contradiction|]. intros _ H.
  unfold np_max. rewrite fold_left_Rmax_last by exact H.
  cbn [length]. now replace (S (length t) - 1)%nat with (length t) by lia.
Qed.

(** ** No computation writes the module state *)

Lemma readonly_ret {A} (a : A) : readonly (ret a).
Proof. intros s. reflexivity. Qed.

Lemma readonly_lift {A} (r : result A) : readonly (lift r).
Proof. intros s. reflexivity. Qed.

Lemma readonly_glob {A} (f : globals -> A) : readonly (glob f).
Proof. intros s. reflexivity. Qed.

Lemma readonly_bind {A B} (m : py A) (k : A -> py B) :
  readonly m -> (forall a, readonly (k a)) -> readonly (bind m k).
Proof.
  intros Hm Hk s. unfold bind. specialize (Hm s).
  destruct (m s) as [[a|e] s']; simpl in Hm; subst s'.
  - apply Hk.
  - reflexivity.
Qed.

Lemma readonly_binop f a b : readonly a -> readonly b -> readonly (binop f a b).
Proof.
  intros Ha Hb. unfold binop.
  apply readonly_bind; [exact Ha|]. intros x.
  apply readonly_bind; [exact Hb|]. intros y.
  apply readonly_lift.
Qed.

Ltac py_readonly :=
  lazymatch goal with
  | |- readonly (binop _ _ _) => apply readonly_binop; py_readonly
  | |- readonly (bind _ _) => apply readonly_bind; [py_readonly | intro; py_readonly]
  | |- readonly (ret _) => apply readonly_ret
  | |- readonly (lift _) => apply readonly_lift
  | |- readonly (glob _) => apply readonly_glob
  end.

Lemma readonly_KMR_strain M Ms Rs dM eps Dist v :
  readonly (KMR_strain M Ms Rs dM eps Dist v).
Proof. unfold KMR_strain, mul, div, pow, lit. py_readonly. Qed.

(** ** [KMR_strain] off its domain *)

(** A negative mass has no real tidal radius. *)
Lemma KMR_strain_negative_mass (s : globals) (M Ms Rs dM eps Dist v : R) :
  M < 0 -> 0 < Ms ->
  raises (KMR_strain M Ms Rs dM eps Dist v) s NotReal.
Proof.
  intros HM HMs. unfold KMR_strain.
  apply raises_bind_l.
  eapply raises_binop_r; [apply evals_lit|].
  eapply raises_binop.
  - apply evals_div; [apply evals_lit | apply evals_lit | lra].
  - apply evals_div; [apply evals_lit | apply evals_lit | lra].
  - apply float_pow_third_neg.
    apply Ropp_lt_cancel. rewrite Ropp_0, <- Rdiv_opp_l.
    apply Rdiv_lt_0_compat; lra.
Qed.

(** A zero mass reaches the division [deltaM / M_pbh]. *)
Lemma KMR_strain_zero_mass (s : globals) (Ms Rs dM eps Dist v : R) :
  c s <> 0 -> 0 < Ms ->
  raises (KMR_strain 0 Ms Rs dM eps Dist v) s ZeroDivisionError.
Proof.
  intros Hc HMs. unfold KMR_strain.
  assert (Hc2 : c s ^ 2 <> 0) by now apply pow_nonzero.
  assert (Hpi : 3 * np_pi <> 0)
    by (unfold np_pi; generalize PI_RGT_0; lra).
  eapply raises_bind_r.
  { apply evals_mul; [apply evals_lit|].
    eapply evals_binop.
    - apply evals_div; [apply evals_lit | apply evals_lit | lra].
    - apply evals_div; [apply evals_lit | apply evals_lit | lra].
    - unfold Rdiv. rewrite Rmult_0_l. apply float_pow_third_zero. }
  eapply raises_bind_r.
  { py_run; auto. }
  apply raises_bind_l.
  do 4 apply raises_binop_l.
  eapply raises_binop_r.
  { py_run; auto. }
  eapply raises_binop; [apply evals_lit | apply evals_lit | apply float_div_zero].
Qed.

(** ** The strain model in the module state of the script *)

Lemma module_parameters :
  M_star module_globals = 2.0e33 /\ R_star module_globals = 7.0e10 /\
  epsilon module_globals = 0.02 /\ deltaM module_globals = 0.001 * 2.0e33 /\
  D module_globals = 3.1e26 /\ v_ej module_globals = 0.1 * 2.9979e10.
Proof. repeat split. Qed.

Lemma module_inputs_valid (m : R) :
  0 < m ->
  valid_inputs m (M_star module_globals) (R_star module_globals)
    (deltaM module_globals) (epsilon module_globals) (D module_globals)
    (v_ej module_globals).
Proof.
  intros Hm.
  destruct module_parameters as (-> & -> & -> & -> & -> & ->).
  split; rewrite ?c_module; lra.
Qed.

Lemma KMR_strain_module M Ms Rs dM eps Dist v :
  0 < M -> 0 < Ms -> Rs <> 0 -> Dist <> 0 ->
  evals (KMR_strain M Ms Rs dM eps Dist v) module_globals
    (strain_product (G module_globals) (c module_globals) M Ms Rs dM eps Dist v).
Proof.
  intros. apply KMR_strain_evals; try assumption.
  - apply Rgt_not_eq, G_module_pos.
  - apply Rgt_not_eq, c_module_pos.
Qed.

Lemma KMR_strain_valid M Ms Rs dM eps Dist v :
  valid_inputs M Ms Rs dM eps Dist v ->
  evals (KMR_strain M Ms Rs dM eps Dist v) module_globals
    (strain_product (G module_globals) (c module_globals) M Ms Rs dM eps Dist v) /\
  0 < strain_product (G module_globals) (c module_globals) M Ms Rs dM eps Dist v.
Proof.
  intros [HM HMs HRs HdM [Heps _] HD [Hv _]]. split.
  - apply KMR_strain_module; lra.
  - apply strain_product_pos; auto using G_module_pos, c_module_pos.
Qed.

Lemma call_KMR_strain_module (m : R) :
  0 < m -> evals (call_KMR_strain m) module_globals (default_strain m).
Proof.
  intros Hm. unfold call_KMR_strain.
  do 6 (eapply evals_bind; [apply evals_glob|]).
  apply KMR_strain_valid. now apply module_inputs_valid.
Qed.

Lemma default_strain_increasing m1 m2 :
  0 < m1 -> m1 < m2 -> default_strain m1 < default_strain m2.
Proof.
  intros H1 H12. destruct (module_inputs_valid m1 H1) as [_ ? ? ? [? _] ? [? _]].
  apply strain_product_increasing; auto using G_module_pos, c_module_pos.
Qed.

(** The sweep returns the strain of every grid mass, in grid order. *)
Lemma strains_module :
  evals strains module_globals (map default_strain (M_pbh module_globals)).
Proof.
  unfold strains. eapply evals_bind; [apply evals_glob|].
  apply evals_comprehension. intros m Hm.
  apply call_KMR_strain_module.
  rewrite M_pbh_module in Hm. apply np_logspace_positive in Hm; [exact Hm | lia].
Qed.

Lemma M_pbh_length : length (M_pbh module_globals) = 200%nat.
Proof. rewrite M_pbh_module. apply np_logspace_length. lia. Qed.

Lemma M_pbh_increasing : strictly_increasing (M_pbh module_globals).
Proof. rewrite M_pbh_module. apply np_logspace_increasing; [lia | lra]. Qed.

Lemma M_pbh_positive i : (i < 200)%nat -> 0 < nth i (M_pbh module_globals) 0.
Proof.
  intros Hi. apply (np_logspace_positive 20 25 200); [lia|].
  rewrite <- M_pbh_module. apply nth_In. now rewrite M_pbh_length.
Qed.

Lemma strains_increasing :
  strictly_increasing (map default_strain (M_pbh module_globals)).
Proof.
  unfold strictly_increasing, increasing_between.
  rewrite length_map, M_pbh_length. intros i j _ Hij Hj.
  rewrite !(nth_map_in default_strain _ 0) by (rewrite M_pbh_length; lia).
  apply default_strain_increasing.
  - apply M_pbh_positive. lia.
  - apply M_pbh_increasing; rewrite ?M_pbh_length; lia.
Qed.

(** ** The reference value at the defaults *)

Lemma PI_enclosure : 3.141592653589 < PI < 3.141592653590.
Proof.
  pose proof (PI_2_3_7_ineq 7) as [Hlo Hhi].
  unfold sum_f_R0, tg_alt, PI_2_3_7_tg, Ratan_seq in Hlo, Hhi.
  simpl in Hlo, Hhi.
  split; lra.
Qed.

Lemma Rpower_third_cube (a : R) : 0 < a -> Rpower (a ^ 3) (1 / 3) = a.
Proof.
  intros Ha. rewrite <- (Rpower_pow 3 a Ha), Rpower_mult.
  replace (INR 3 * (1 / 3)) with 1 by (simpl; lra).
  now apply Rpower_1.
Qed.

Lemma cube_root_enclosure (x a b : R) :
  0 < a -> a ^ 3 < x -> x < b ^ 3 -> 0 < b -> a < Rpower x (1 / 3) < b.
Proof.
  intros Ha Hax Hxb Hb.
  assert (Ha3 : 0 < a ^ 3) by now apply pow_lt.
  split.
  - rewrite <- (Rpower_third_cube a Ha) at 1. apply Rlt_Rpower_l; lra.
  - rewrite <- (Rpower_third_cube b Hb). apply Rlt_Rpower_l; lra.
Qed.

Lemma cube_root_mass_ratio :
  1.709975946676e-4 < Rpower (1e22 / 2.0e33) (1 / 3) < 1.709975946677e-4.
Proof. apply cube_root_enclosure; lra. Qed.

Lemma default_strain_enclosure :
  1.12296884033e-22 <
  strain_product 6.6743e-8 2.9979e10 1e22 2.0e33 7.0e10 2.0e30 0.02 3.1e26 2.9979e9
  < 1.12296884034e-22.
Proof.
  unfold strain_product, tidal_radius, gravitational_radius.
  pose proof PI_enclosure as [Hp1 Hp2].
  pose proof cube_root_mass_ratio as [Hc1 Hc2].
  set (cb := Rpower _ _) in *. clearbody cb.
  set (p := PI) in *. clearbody p.
  assert (Hpc : 0 < p * cb) by nra.
  assert (Hlo : 3.141592653589 * 1.709975946676e-4 < p * cb) by nra.
  assert (Hhi : p * cb < 3.141592653590 * 1.709975946677e-4) by nra.
  set (K := 1e40 * (8 * 0.02 / 3) * (2.0e30 / 1e22) *
            (2 * 6.6743e-8 * 1e22 / 2.9979e10 ^ 2 / 7.0e10) *
            (2.9979e9 / 2.9979e10) ^ 2 * (6.6743e-8 / 2.9979e10 ^ 4) *
            (1e22 / 3.1e26)).
  assert (E : 1e40 * (8 * 0.02 / (3 * p)) * (2.0e30 / 1e22) *
              / (7.0e10 * cb / (2 * 6.6743e-8 * 1e22 / 2.9979e10 ^ 2)) *
              (2.9979e9 / 2.9979e10) ^ 2 * (6.6743e-8 / 2.9979e10 ^ 4) *
              (1e22 / 3.1e26) = K / (p * cb)).
  { unfold K. field. split; lra. }
  rewrite E. clear E.
  assert (HK : K = 143697679 / 2382002283778965613656141959531250)
    by (unfold K; lra).
  rewrite HK. clear HK K.
  set (d := p * cb) in *. clearbody d.
  split.
  - apply (Rmult_lt_reg_r d); [exact Hpc|].
    unfold Rdiv at 2. rewrite Rmult_assoc, Rinv_l by lra. lra.
  - apply (Rmult_lt_reg_r d); [exact Hpc|].
    unfold Rdiv at 1. rewrite Rmult_assoc, Rinv_l by lra. lra.
Qed.

(** ** The operators on small inputs *)

Example float_div_6_3 : float_div 6 3 = Ok 2.
Proof. rewrite float_div_ok by lra. f_equal. lra. Qed.

Example float_div_1_0 : float_div 1 0 = Raise ZeroDivisionError.
Proof. apply float_div_zero. Qed.

Example float_pow_8_third : float_pow 8 (1 / 3) = Ok 2.
Proof.
  rewrite float_pow_third_pos by lra. f_equal.
  replace 8 with (2 ^ 3) by lra. apply Rpower_third_cube. lra.
Qed.

Example float_pow_m8_third : float_pow (-8) (1 / 3) = Raise NotReal.
Proof. apply float_pow_third_neg. lra. Qed.

Example float_pow_4_m1 : float_pow 4 (-1) = Ok (/ 4).
Proof. apply float_pow_m1. lra. Qed.

Example np_linspace_0_1_3 : np_linspace 0 1 3 = [0; 1 / 2; 1].
Proof.
  unfold np_linspace. cbn [Nat.ltb Nat.leb Nat.sub seq map removelast app INR].
  f_equal; [lra | f_equal; lra].
Qed.

Example np_logspace_0_2_3 : np_logspace 0 2 3 = [1; 10; 100].
Proof.
  rewrite np_logspace_samples by lia. unfold grid_exponent.
  cbn [Nat.sub seq map INR].
  replace (0 * ((2 - 0) / (1 + 1)) + 0) with (INR 0) by (simpl; lra).
  replace (1 * ((2 - 0) / (1 + 1)) + 0) with (INR 1) by (simpl; lra).
  replace ((1 + 1) * ((2 - 0) / (1 + 1)) + 0) with (INR 2) by (simpl; lra).
  rewrite !Rpower_10_nat. repeat (f_equal; try lra).
Qed.

(** ** What a result depends on *)

Lemma reads_ret {A} (a : A) : reads_only_G_c (ret a).
Proof. intros s s' _ _. reflexivity. Qed.

Lemma reads_lift {A} (r : result A) : reads_only_G_c (lift r).
Proof. intros s s' _ _. reflexivity. Qed.

Lemma reads_G : reads_only_G_c (glob G).
Proof. intros s s' HG _. simpl. now rewrite HG. Qed.

Lemma reads_c : reads_only_G_c (glob c).
Proof. intros s s' _ Hc. simpl. now rewrite Hc. Qed.

Lemma reads_bind {A B} (m : py A) (k : A -> py B) :
  readonly m -> reads_only_G_c m -> (forall a, reads_only_G_c (k a)) ->
  reads_only_G_c (bind m k).
Proof.
  intros Hro Hm Hk s s' HG Hc. unfold bind.
  pose proof (Hm s s' HG Hc) as E.
  pose proof (Hro s) as R1. pose proof (Hro s') as R2.
  destruct (m s) as [r1 t1], (m s') as [r2 t2]. simpl in *. subst.
  destruct r2 as [a|e]; [now apply Hk | reflexivity].
Qed.

Lemma reads_binop f a b :
  readonly a -> readonly b -> reads_only_G_c a -> reads_only_G_c b ->
  reads_only_G_c (binop f a b).
Proof.
  intros Ha Hb Ra Rb. unfold binop.
  apply reads_bind; [exact Ha | exact Ra |]. intros x.
  apply reads_bind; [exact Hb | exact Rb |]. intros y.
  apply reads_lift.
Qed.

Ltac py_reads :=
  lazymatch goal with
  | |- reads_only_G_c (binop _ _ _) =>
      apply reads_binop; [py_readonly | py_readonly | py_reads | py_reads]
  | |- reads_only_G_c (bind _ _) =>
      apply reads_bind; [py_readonly | py_reads | intro; py_reads]
  | |- reads_only_G_c (ret _) => apply reads_ret
  | |- reads_only_G_c (lift _) => apply reads_lift
  | |- reads_only_G_c (glob G) => apply reads_G
  | |- reads_only_G_c (glob c) => apply reads_c
  end.

Lemma reads_KMR_strain M Ms Rs dM eps Dist v :
  reads_only_G_c (KMR_strain M Ms Rs dM eps Dist v).
Proof. unfold KMR_strain, mul, div, pow, lit. py_reads. Qed.

(** * The claims *)

(** ** C1: dependence on the observer distance *)

(** C1, as the claim states it, fails: at the defaults of the script and the
    mass 1e22 g, the strain at [D] over the strain at [2 D] is not 4. *)
Lemma strain_distance_ratio_is_not_4 :
  exists h1 h2,
    evals (KMR_strain 1e22 2.0e33 7.0e10 2.0e30 0.02 3.1e26 2.9979e9)
          module_globals h1 /\
    evals (KMR_strain 1e22 2.0e33 7.0e10 2.0e30 0.02 (2 * 3.1e26) 2.9979e9)
          module_globals h2 /\
    h1 / h2 <> 4.
Proof.
  destruct (KMR_strain_valid _ _ _ _ _ _ _ default_inputs_valid) as [He Hpos].
  eexists. eexists. split; [exact He|]. split.
  - apply KMR_strain_module; lra.
  - rewrite (strain_product_D _ _ 2 _ _ _ _ _ 3.1e26).
    set (h := strain_product _ _ _ _ _ _ _ _ _) in *. clearbody h.
    assert (E : h / (/ 2 * h) = 2) by (field; lra).
    rewrite E. lra.
Qed.

(** C1 (amended): for every valid parameter bundle and every strictly
    positive distance D, both strains are returned, the second one is not
    zero, and Strain(D) / Strain(2 D) = 2: the strain scales as the inverse of
    the observer distance, all other inputs held fixed. *)
Theorem strain_inverse_distance (M Ms Rs dM eps Dist v : R) :
  valid_inputs M Ms Rs dM eps Dist v ->
  exists h1 h2,
    evals (KMR_strain M Ms Rs dM eps Dist v) module_globals h1 /\
    evals (KMR_strain M Ms Rs dM eps (2 * Dist) v) module_globals h2 /\
    h2 <> 0 /\ h1 / h2 = 2.
Proof.
  intros Hv. destruct (KMR_strain_valid _ _ _ _ _ _ _ Hv) as [He Hpos].
  destruct Hv as [HM HMs HRs _ _ HD _].
  eexists. eexists. split; [exact He|]. split.
  - apply KMR_strain_module; lra.
  - rewrite (strain_product_D _ _ 2 _ _ _ _ _ Dist).
    set (h := strain_product _ _ _ _ _ _ _ _ _) in *. clearbody h.
    split; [lra | field; lra].
Qed.

Lemma strain_inverse_distance_witness :
  valid_inputs 1e22 2.0e33 7.0e10 2.0e30 0.02 3.1e26 2.9979e9 /\
  exists h1 h2,
    evals (KMR_strain 1e22 2.0e33 7.0e10 2.0e30 0.02 3.1e26 2.9979e9)
          module_globals h1 /\
    evals (KMR_strain 1e22 2.0e33 7.0e10 2.0e30 0.02 (2 * 3.1e26) 2.9979e9)
          module_globals h2 /\
    h2 <> 0 /\ h1 / h2 = 2.
Proof.
  split.
  - exact default_inputs_valid.
  - exact (strain_inverse_distance _ _ _ _ _ _ _ default_inputs_valid).
Defined.

(** ** C5: dependence on the ejected mass and the anisotropy factor *)

(** C5: for every strictly positive black-hole mass and every valid parameter
    bundle, doubling the ejected mass doubles the strain, and doubling the
    anisotropy factor doubles the strain, all other inputs held fixed. *)
Theorem strain_linear_in_deltaM_and_epsilon (M Ms Rs dM eps Dist v : R) :
  valid_inputs M Ms Rs dM eps Dist v ->
  exists h,
    evals (KMR_strain M Ms Rs dM eps Dist v) module_globals h /\
    evals (KMR_strain M Ms Rs (2 * dM) eps Dist v) module_globals (2 * h) /\
    evals (KMR_strain M Ms Rs dM (2 * eps) Dist v) module_globals (2 * h).
Proof.
  intros Hv. destruct (KMR_strain_valid _ _ _ _ _ _ _ Hv) as [He _].
  destruct Hv as [HM HMs HRs _ _ HD _].
  eexists. split; [exact He|]. split.
  - rewrite <- strain_product_deltaM. apply KMR_strain_module; lra.
  - rewrite <- strain_product_epsilon. apply KMR_strain_module; lra.
Qed.

Lemma strain_linear_in_deltaM_and_epsilon_witness :
  valid_inputs 1e22 2.0e33 7.0e10 2.0e30 0.02 3.1e26 2.9979e9 /\
  exists h,
    evals (KMR_strain 1e22 2.0e33 7.0e10 2.0e30 0.02 3.1e26 2.9979e9)
          module_globals h /\
    evals (KMR_strain 1e22 2.0e33 7.0e10 (2 * 2.0e30) 0.02 3.1e26 2.9979e9)
          module_globals (2 * h) /\
    evals (KMR_strain 1e22 2.0e33 7.0e10 2.0e30 (2 * 0.02) 3.1e26 2.9979e9)
          module_globals (2 * h).
Proof.
  split.
  - exact default_inputs_valid.
  - exact (strain_linear_in_deltaM_and_epsilon _ _ _ _ _ _ _ default_inputs_valid).
Defined.

(** ** C8: the strain is a magnitude *)

(** C8: for every strictly positive black-hole mass and every parameter
    bundle within its declared domain, the strain model returns a real
    number that is not negative. *)
Theorem strain_nonnegative (M Ms Rs dM eps Dist v : R) :
  valid_inputs M Ms Rs dM eps Dist v ->
  exists h, evals (KMR_strain M Ms Rs dM eps Dist v) module_globals h /\ 0 <= h.
Proof.
  intros Hv. destruct (KMR_strain_valid _ _ _ _ _ _ _ Hv) as [He Hpos].
  eexists. split; [exact He | lra].
Qed.

Lemma strain_nonnegative_witness :
  valid_inputs 1e22 2.0e33 7.0e10 2.0e30 0.02 3.1e26 2.9979e9 /\
  exists h,
    evals (KMR_strain 1e22 2.0e33 7.0e10 2.0e30 0.02 3.1e26 2.9979e9)
          module_globals h /\ 0 <= h.
Proof.
  split.
  - exact default_inputs_valid.
  - exact (strain_nonnegative _ _ _ _ _ _ _ default_inputs_valid).
Defined.

(** ** C2: the product and its value at the defaults *)

(** C2: for every strictly positive black-hole mass (the stellar mass being
    positive, the stellar radius and the distance not zero), [KMR_strain]
    returns exactly the product of 10^40, (8 eps / 3 pi) * (dM / M), the
    inverse of Rt / Rg with Rt = R_star * (M / M_star)^(1/3) and
    Rg = 2 G M / c^2, (v_ej / c)^2, G / c^4 and M / D; at the documented
    defaults and M_pbh = 1e22 g, as explicit arguments and as the globals of
    the script, it returns the reference value within the relative tolerance
    1e-9. *)
Theorem KMR_strain_product_and_reference :
  (forall M Ms Rs dM eps Dist v : R,
     0 < M -> 0 < Ms -> Rs <> 0 -> Dist <> 0 ->
     evals (KMR_strain M Ms Rs dM eps Dist v) module_globals
       (10 ^ 40 * (8 * eps / (3 * PI) * (dM / M)) *
        / (Rs * Rpower (M / Ms) (1 / 3) / (2 * 6.6743e-8 * M / 2.9979e10 ^ 2)) *
        (v / 2.9979e10) ^ 2 * (6.6743e-8 / 2.9979e10 ^ 4) * (M / Dist))) /\
  exists h,
    evals (KMR_strain 1e22 2.0e33 7.0e10 2.0e30 0.02 3.1e26 2.9979e9)
          module_globals h /\
    evals (call_KMR_strain 1e22) module_globals h /\
    Rabs (h - golden_strain) <= 1e-9 * golden_strain.
Proof.
  split.
  - intros M Ms Rs dM eps Dist v HM HMs HRs HD.
    pose proof (KMR_strain_module M Ms Rs dM eps Dist v HM HMs HRs HD) as H.
    unfold strain_product, tidal_radius, gravitational_radius in H.
    rewrite G_module, c_module in H.
    replace (10 ^ 40) with 1e40 by lra.
    rewrite <- Rmult_assoc. exact H.
  - exists (strain_product 6.6743e-8 2.9979e10 1e22 2.0e33 7.0e10 2.0e30 0.02
                           3.1e26 2.9979e9).
    split; [|split].
    + apply (KMR_strain_module 1e22); lra.
    + replace 2.0e30 with (0.001 * 2.0e33) by lra.
      replace 2.9979e9 with (0.1 * 2.9979e10) by lra.
      apply (call_KMR_strain_module 1e22). lra.
    + pose proof default_strain_enclosure as [Hlo Hhi].
      unfold golden_strain. apply Rabs_le. lra.
Qed.

Lemma KMR_strain_product_and_reference_witness :
  0 < 1e22 /\ 0 < 2.0e33 /\ 7.0e10 <> 0 /\ 3.1e26 <> 0 /\
  evals (KMR_strain 1e22 2.0e33 7.0e10 2.0e30 0.02 3.1e26 2.9979e9) module_globals
    (10 ^ 40 * (8 * 0.02 / (3 * PI) * (2.0e30 / 1e22)) *
     / (7.0e10 * Rpower (1e22 / 2.0e33) (1 / 3) /
        (2 * 6.6743e-8 * 1e22 / 2.9979e10 ^ 2)) *
     (2.9979e9 / 2.9979e10) ^ 2 * (6.6743e-8 / 2.9979e10 ^ 4) * (1e22 / 3.1e26)).
Proof.
  assert (H1 : 0 < 1e22) by lra.
  assert (H2 : 0 < 2.0e33) by lra.
  assert (H3 : 7.0e10 <> 0) by lra.
  assert (H4 : 3.1e26 <> 0) by lra.
  repeat split; try assumption.
  exact (proj1 KMR_strain_product_and_reference
           1e22 2.0e33 7.0e10 2.0e30 0.02 3.1e26 2.9979e9 H1 H2 H3 H4).
Defined.

(** ** C3: the mass grid *)

(** C3: the grid built with decade bounds (20, 25) and count 200 is what
    [np.logspace] returns on these arguments, has exactly 200 values, the one
    of index i being 10^(20 + i * 5/199), its first value is 10^20, its last
    one 10^25, and its values are strictly increasing. *)
Theorem mass_grid_construction :
  M_pbh module_globals = np_logspace 20 25 200 /\
  length (M_pbh module_globals) = 200%nat /\
  M_pbh module_globals =
    map (fun i => Rpower 10 (20 + INR i * (5 / 199))) (seq 0 200) /\
  nth 0 (M_pbh module_globals) 0 = 10 ^ 20 /\
  nth 199 (M_pbh module_globals) 0 = 10 ^ 25 /\
  strictly_increasing (M_pbh module_globals).
Proof.
  assert (H200 : (1 < 200)%nat) by lia.
  split; [reflexivity|]. split; [exact M_pbh_length|]. split; [|split; [|split]].
  - rewrite M_pbh_module, np_logspace_samples by exact H200.
    apply map_ext. intros i. f_equal. unfold grid_exponent.
    replace (INR (200 - 1)) with 199 by (rewrite INR_IZR_INZ; reflexivity).
    lra.
  - rewrite M_pbh_module, np_logspace_first by exact H200.
    replace 20 with (INR 20) at 1 by (rewrite INR_IZR_INZ; reflexivity).
    apply Rpower_10_nat.
  - rewrite M_pbh_module.
    change 199%nat with (200 - 1)%nat.
    rewrite np_logspace_last by exact H200.
    replace 25 with (INR 25) at 1 by (rewrite INR_IZR_INZ; reflexivity).
    apply Rpower_10_nat.
  - exact M_pbh_increasing.
Qed.

(** ** C4: the strain sequence is aligned with the grid *)

(** C4: the sweep returns a strain sequence of the length of the mass grid,
    and for every index i its i-th value is what the strain model returns on
    the i-th grid mass with the parameters of the module. *)
Theorem strains_aligned_with_grid :
  exists ss,
    evals strains module_globals ss /\
    length ss = length (M_pbh module_globals) /\
    forall i, (i < length (M_pbh module_globals))%nat ->
      evals (KMR_strain (nth i (M_pbh module_globals) 0)
               (M_star module_globals) (R_star module_globals)
               (deltaM module_globals) (epsilon module_globals)
               (D module_globals) (v_ej module_globals))
            module_globals (nth i ss 0).
Proof.
  exists (map default_strain (M_pbh module_globals)).
  split; [exact strains_module|]. split; [apply length_map|].
  intros i Hi. rewrite (nth_map_in default_strain _ 0) by exact Hi.
  apply KMR_strain_valid, module_inputs_valid, M_pbh_positive.
  now rewrite <- M_pbh_length.
Qed.

(** ** C6: no division by zero on the domain *)

Lemma raises_not_evals {A} (m : py A) (s : globals) (e : exn) (v : A) :
  raises m s e -> ~ evals m s v.
Proof. unfold raises, evals. intros -> H. discriminate H. Qed.

Lemma evals_unique {A} (m : py A) (s : globals) (v w : A) :
  evals m s v -> evals m s w -> v = w.
Proof. unfold evals. intros -> H. now injection H. Qed.

Section Binary64Run.

Local Open Scope float_scope.

Lemma positive_normal_finite (r : float) :
  PrimFloat.classify r = PNormal ->
  exists m e, Prim2SF r = S754_finite false m e.
Proof.
  rewrite classify_spec. unfold SF64classify, SFclassify.
  destruct (Prim2SF r) as [s|s| |s m e]; try (destruct s; discriminate).
  - discriminate.
  - destruct s.
    + destruct (Z.eqb _ _); discriminate.
    + intros _. now exists m, e.
Qed.

Variable r : float.
Variables (m : positive) (e : Z).
Hypothesis r_finite : Prim2SF r = S754_finite false m e.

Lemma finite_not_infinity : PrimFloat.is_infinity r = false.
Proof.
  unfold PrimFloat.is_infinity. rewrite eqb_spec, abs_spec, r_finite. reflexivity.
Qed.

Lemma finite_not_zero : (r =? 0) = false.
Proof. rewrite eqb_spec, r_finite. reflexivity. Qed.

Lemma zero_over_finite : (0 / r =? 0) = true.
Proof. rewrite eqb_spec, div_spec, r_finite. reflexivity. Qed.

End Binary64Run.

Lemma truediv_float (x y : float) :
  PrimFloat.eqb y 0 = false -> Binary64.truediv x y = Binary64.Float (x / y).
Proof. intros H. unfold Binary64.truediv. now rewrite H. Qed.

Lemma truediv_zero (x y : float) :
  PrimFloat.eqb y 0 = true ->
  Binary64.truediv x y = Binary64.Exception ZeroDivisionError.
Proof. intros H. unfold Binary64.truediv. now rewrite H. Qed.

Lemma c_squared (libm_pow : float -> float -> float) :
  Binary64.float_pow libm_pow Binary64.c 2 =
  if PrimFloat.is_infinity (libm_pow Binary64.c 2%float)
  then Binary64.Exception OverflowError
  else Binary64.Float (libm_pow Binary64.c 2%float).
Proof. reflexivity. Qed.

(** With the defaults of the script and the positive mass 1e-320 g, the
    product [2 * G * M_pbh] underflows to [0.0], [Rg] is [0.0] whatever
    positive number the C library returns for [c ** 2], and [Rt / Rg]
    divides by zero. *)
Lemma tiny_mass_run (libm_pow : float -> float -> float) :
  PrimFloat.classify (libm_pow Binary64.c 2%float) = PNormal ->
  Binary64.KMR_strain libm_pow 1e-320 2.0e33 7.0e10 2.0e30 0.02 3.1e26 2.9979e9 =
  Binary64.Exception ZeroDivisionError.
Proof.
  intros H. destruct (positive_normal_finite _ H) as (m & e & Hr).
  unfold Binary64.KMR_strain.
  rewrite (truediv_float 1e-320 2.0e33) by reflexivity.
  cbn [Binary64.and_then].
  rewrite (truediv_float 1 3) by reflexivity.
  cbn [Binary64.and_then].
  replace (Binary64.float_pow libm_pow (1e-320 / 2.0e33) (1 / 3))
    with (Binary64.Float 0) by reflexivity.
  cbn [Binary64.and_then].
  rewrite c_squared, (finite_not_infinity _ m e Hr).
  cbn [Binary64.and_then].
  rewrite (truediv_float _ (libm_pow Binary64.c 2%float))
    by exact (finite_not_zero _ m e Hr).
  cbn [Binary64.and_then].
  rewrite (truediv_float (8 * 0.02) (3 * Binary64.np_pi)) by reflexivity.
  cbn [Binary64.and_then].
  rewrite (truediv_float 2.0e30 1e-320) by reflexivity.
  cbn [Binary64.and_then].
  rewrite truediv_zero; [reflexivity|].
  replace (2 * Binary64.G * 1e-320)%float with 0%float by reflexivity.
  exact (zero_over_finite _ m e Hr).
Qed.

(** C6, as the claim states it, fails on binary64 floats: the mass 1e-320 g
    and the default parameters are strictly positive, and the call divides by
    zero at [Rt / Rg], for every C library whose [pow] returns a positive
    normal number for [c ** 2]. *)
Lemma tiny_mass_divides_by_zero :
  PrimFloat.ltb 0 1e-320 = true /\
  PrimFloat.ltb 0 2.0e33 = true /\
  PrimFloat.ltb 0 7.0e10 = true /\
  PrimFloat.ltb 0 3.1e26 = true /\
  PrimFloat.ltb 0 Binary64.c = true /\
  forall libm_pow : float -> float -> float,
    PrimFloat.classify (libm_pow Binary64.c 2%float) = PNormal ->
    Binary64.KMR_strain libm_pow 1e-320 2.0e33 7.0e10 2.0e30 0.02 3.1e26 2.9979e9 =
    Binary64.Exception ZeroDivisionError.
Proof.
  repeat (split; [reflexivity|]). exact tiny_mass_run.
Qed.

(** C6 (amended): over exact real arithmetic, when the stellar mass, the
    stellar radius, the distance and [c] are strictly positive, a strictly
    positive black-hole mass makes every denominator of [KMR_strain] nonzero
    and the call returns a number; with a mass that is zero or negative the
    call returns no real number; and the grid holds strictly positive masses
    only, so the sweep returns. *)
Theorem KMR_strain_division_safety (M Ms Rs dM eps Dist v : R) :
  0 < Ms -> 0 < Rs -> 0 < Dist -> 0 < c module_globals ->
  (0 < M ->
     (Ms <> 0 /\ c module_globals ^ 2 <> 0 /\ M <> 0 /\
      tidal_radius M Ms Rs /
        gravitational_radius (G module_globals) (c module_globals) M <> 0 /\
      c module_globals <> 0 /\ c module_globals ^ 4 <> 0 /\ Dist <> 0) /\
     exists h, evals (KMR_strain M Ms Rs dM eps Dist v) module_globals h) /\
  (M <= 0 ->
     forall h, ~ evals (KMR_strain M Ms Rs dM eps Dist v) module_globals h) /\
  Forall (fun m => 0 < m) (M_pbh module_globals) /\
  exists ss, evals strains module_globals ss.
Proof.
  intros HMs HRs HD Hc.
  assert (Hc0 : c module_globals <> 0) by lra.
  assert (HG0 : G module_globals <> 0) by apply Rgt_not_eq, G_module_pos.
  split; [|split; [|split]].
  - intros HM. split.
    + repeat split; try lra; try now apply pow_nonzero.
      apply radius_ratio_neq_0; lra.
    + eexists. apply KMR_strain_module; lra.
  - intros [HM | ->] h.
    + apply (raises_not_evals _ _ NotReal).
      now apply KMR_strain_negative_mass.
    + apply (raises_not_evals _ _ ZeroDivisionError).
      now apply KMR_strain_zero_mass.
  - apply Forall_forall. intros m Hm. rewrite M_pbh_module in Hm.
    apply np_logspace_positive in Hm; [exact Hm | lia].
  - eexists. exact strains_module.
Qed.

Lemma KMR_strain_division_safety_witness :
  (0 < 2.0e33 /\ 0 < 7.0e10 /\ 0 < 3.1e26 /\ 0 < c module_globals) /\
  (0 < 1e22 ->
     (2.0e33 <> 0 /\ c module_globals ^ 2 <> 0 /\ 1e22 <> 0 /\
      tidal_radius 1e22 2.0e33 7.0e10 /
        gravitational_radius (G module_globals) (c module_globals) 1e22 <> 0 /\
      c module_globals <> 0 /\ c module_globals ^ 4 <> 0 /\ 3.1e26 <> 0) /\
     exists h,
       evals (KMR_strain 1e22 2.0e33 7.0e10 2.0e30 0.02 3.1e26 2.9979e9)
             module_globals h) /\
  (1e22 <= 0 ->
     forall h,
       ~ evals (KMR_strain 1e22 2.0e33 7.0e10 2.0e30 0.02 3.1e26 2.9979e9)
               module_globals h) /\
  Forall (fun m => 0 < m) (M_pbh module_globals) /\
  exists ss, evals strains module_globals ss.
Proof.
  assert (H1 : 0 < 2.0e33) by lra.
  assert (H2 : 0 < 7.0e10) by lra.
  assert (H3 : 0 < 3.1e26) by lra.
  split.
  - repeat split; try assumption. exact c_module_pos.
  - exact (KMR_strain_division_safety 1e22 2.0e33 7.0e10 2.0e30 0.02 3.1e26
             2.9979e9 H1 H2 H3 c_module_pos).
Defined.

(** ** C7: the shape of the strain sequence *)

(** C7: with the default parameters, the strain sequence produced over the
    grid from 10^20 g to 10^25 g has a single interior maximum or is
    monotonic. *)
Theorem strains_unimodal_or_monotonic :
  exists ss,
    evals strains module_globals ss /\
    (single_interior_maximum ss \/ monotonic ss).
Proof.
  exists (map default_strain (M_pbh module_globals)).
  split; [exact strains_module|].
  right. left. exact strains_increasing.
Qed.

(** ** C9: the dependence on the black-hole mass *)

(** C9: on its domain the strain goes as the power 2/3 of the black-hole
    mass, Strain(k M) = k^(2/3) Strain(M) for every k > 0; it is strictly
    increasing in the mass; and over the default grid the reported minimum is
    the strain of the first grid mass and the reported maximum the strain of
    the last one. *)
Theorem strain_mass_dependence :
  (forall M Ms Rs dM eps Dist v k : R,
     valid_inputs M Ms Rs dM eps Dist v -> 0 < k ->
     exists h,
       evals (KMR_strain M Ms Rs dM eps Dist v) module_globals h /\
       evals (KMR_strain (k * M) Ms Rs dM eps Dist v) module_globals
             (Rpower k (2 / 3) * h)) /\
  (forall M1 M2 Ms Rs dM eps Dist v : R,
     valid_inputs M1 Ms Rs dM eps Dist v -> M1 < M2 ->
     exists h1 h2,
       evals (KMR_strain M1 Ms Rs dM eps Dist v) module_globals h1 /\
       evals (KMR_strain M2 Ms Rs dM eps Dist v) module_globals h2 /\
       h1 < h2) /\
  exists lo hi,
    evals strain_range module_globals (lo, hi) /\
    evals (call_KMR_strain (nth 0 (M_pbh module_globals) 0)) module_globals lo /\
    evals (call_KMR_strain (nth 199 (M_pbh module_globals) 0)) module_globals hi.
Proof.
  split; [|split].
  - intros M Ms Rs dM eps Dist v k Hv Hk.
    destruct (KMR_strain_valid _ _ _ _ _ _ _ Hv) as [He _].
    destruct Hv as [HM HMs HRs _ _ HD _].
    eexists. split; [exact He|].
    rewrite <- strain_product_M; try lra; auto using G_module_pos, c_module_pos.
    apply KMR_strain_module; try lra. now apply Rmult_lt_0_compat.
  - intros M1 M2 Ms Rs dM eps Dist v Hv H12.
    destruct (KMR_strain_valid _ _ _ _ _ _ _ Hv) as [He _].
    destruct Hv as [HM HMs HRs HdM [Heps _] HD [Hvej _]].
    eexists. eexists. split; [exact He|]. split.
    + apply KMR_strain_module; lra.
    + apply strain_product_increasing; auto using G_module_pos, c_module_pos.
  - exists (default_strain (nth 0 (M_pbh module_globals) 0)),
           (default_strain (nth 199 (M_pbh module_globals) 0)).
    split; [|split].
    + unfold strain_range.
      assert (Hne : map default_strain (M_pbh module_globals) <> []).
      { intros E. apply (f_equal (@length R)) in E.
        rewrite length_map, M_pbh_length in E. discriminate E. }
      eapply evals_bind; [exact strains_module|].
      eapply evals_bind.
      { unfold evals, lift.
        rewrite (np_min_increasing _ Hne strains_increasing). reflexivity. }
      eapply evals_bind.
      { unfold evals, lift.
        rewrite (np_max_increasing _ Hne strains_increasing). reflexivity. }
      rewrite length_map, M_pbh_length.
      change (200 - 1)%nat with 199%nat.
      rewrite !(nth_map_in default_strain _ 0) by (rewrite M_pbh_length; lia).
      apply evals_ret.
    + apply call_KMR_strain_module, M_pbh_positive. lia.
    + apply call_KMR_strain_module, M_pbh_positive. lia.
Qed.

Lemma strain_mass_dependence_witness :
  valid_inputs 1e22 2.0e33 7.0e10 2.0e30 0.02 3.1e26 2.9979e9 /\ 0 < 8 /\
  exists h,
    evals (KMR_strain 1e22 2.0e33 7.0e10 2.0e30 0.02 3.1e26 2.9979e9)
          module_globals h /\
    evals (KMR_strain (8 * 1e22) 2.0e33 7.0e10 2.0e30 0.02 3.1e26 2.9979e9)
          module_globals (Rpower 8 (2 / 3) * h).
Proof.
  assert (H8 : 0 < 8) by lra.
  split; [exact default_inputs_valid|]. split; [exact H8|].
  exact (proj1 strain_mass_dependence 1e22 2.0e33 7.0e10 2.0e30 0.02 3.1e26
           2.9979e9 8 default_inputs_valid H8).
Defined.

(** ** C10: determinism *)

(** C10: a call of the strain model leaves the module state as it found it,
    a second call with the same inputs returns what the first one returned,
    and the result depends on nothing in the module state but the constants
    [G] and [c]. *)
Theorem KMR_strain_deterministic (M Ms Rs dM eps Dist v : R) (s s' : globals) :
  snd (KMR_strain M Ms Rs dM eps Dist v s) = s /\
  KMR_strain M Ms Rs dM eps Dist v (snd (KMR_strain M Ms Rs dM eps Dist v s)) =
    KMR_strain M Ms Rs dM eps Dist v s /\
  (G s = G s' -> c s = c s' ->
   fst (KMR_strain M Ms Rs dM eps Dist v s) =
   fst (KMR_strain M Ms Rs dM eps Dist v s')).
Proof.
  pose proof (readonly_KMR_strain M Ms Rs dM eps Dist v s) as Hro.
  split; [exact Hro|]. split.
  - now rewrite Hro.
  - apply reads_KMR_strain.
Qed.

(** A state that keeps [G] and [c] and has lost everything else. *)
Lemma KMR_strain_deterministic_witness :
  G module_globals = G (Globals 6.6743e-8 2.9979e10 0 0 0 0 0 0 0 0 []) /\
  c module_globals = c (Globals 6.6743e-8 2.9979e10 0 0 0 0 0 0 0 0 []) /\
  fst (KMR_strain 1e22 2.0e33 7.0e10 2.0e30 0.02 3.1e26 2.9979e9 module_globals) =
  fst (KMR_strain 1e22 2.0e33 7.0e10 2.0e30 0.02 3.1e26 2.9979e9
         (Globals 6.6743e-8 2.9979e10 0 0 0 0 0 0 0 0 [])).
Proof.
  split; [reflexivity|]. split; [reflexivity|].
  exact (proj2 (proj2 (KMR_strain_deterministic
                         1e22 2.0e33 7.0e10 2.0e30 0.02 3.1e26 2.9979e9
                         module_globals
                         (Globals 6.6743e-8 2.9979e10 0 0 0 0 0 0 0 0 [])))
               eq_refl eq_refl).
Defined.

(** * Further properties of the script *)

(** ** Where [KMR_strain] is defined *)



Lemma opposite_sign_ratio (M Ms : R) : M * Ms < 0 -> Ms <> 0 /\ M / Ms < 0.
Proof.
  intros H.
  assert (HMs : Ms <> 0) by (intros ->; lra).
  split; [assumption|].
  replace (M / Ms) with (M * Ms * (/ Ms * / Ms)) by (field; assumption).
  assert (Hi : / Ms <> 0) by now apply Rinv_neq_0_compat.
  assert (0 < / Ms * / Ms) by nra.
  nra.
Qed.

Section Domain.

Variable s : globals.


Lemma tidal_line_zero (Ms Rs : R) :
  Ms <> 0 -> evals (Rs * (0 / Ms) ** (1 / 3))%py s (Rs * 0).
Proof.
  intros HMs. apply evals_mul; [apply evals_lit|].
  eapply evals_binop.
  - apply evals_div; [apply evals_lit | apply evals_lit | exact HMs].
  - apply evals_div; [apply evals_lit | apply evals_lit | lra].
  - unfold Rdiv. rewrite Rmult_0_l. apply float_pow_third_zero.
Qed.

(** The gravitational radius line. *)
Lemma gravitational_line_evals (M : R) :
  c s <> 0 ->
  evals (2 * glob G * M / glob c ** 2)%py s (gravitational_radius (G s) (c s) M).
Proof.
  intros Hc. assert (Hc2 : c s ^ 2 <> 0) by now apply pow_nonzero.
  unfold gravitational_radius. py_run; auto.
Qed.

Lemma gravitational_line_raises (M : R) :
  c s = 0 ->
  raises (2 * glob G * M / glob c ** 2)%py s ZeroDivisionError.
Proof.
  intros Hc. eapply raises_binop.
  - py_run.
  - py_run.
  - rewrite Hc. replace (0 ^ 2) with 0 by ring. apply float_div_zero.
Qed.


(** Masses of opposite signs have no real tidal radius. *)
Lemma KMR_strain_opposite_signs (M Ms Rs dM eps Dist v : R) :
  M * Ms < 0 -> raises (KMR_strain M Ms Rs dM eps Dist v) s NotReal.
Proof.
  intros H. destruct (opposite_sign_ratio M Ms H) as (HMs & Hq).
  unfold KMR_strain.
  apply raises_bind_l.
  eapply raises_binop_r; [apply evals_lit|].
  eapply raises_binop.
  - apply evals_div; [apply evals_lit | apply evals_lit | exact HMs].
  - apply evals_div; [apply evals_lit | apply evals_lit | lra].
  - now apply float_pow_third_neg.
Qed.


(** A black-hole mass of zero stops at [deltaM / M_pbh], or before it at
    [c ** 2] when the state holds [c = 0]. *)
Lemma KMR_strain_zero_M_pbh (M Ms Rs dM eps Dist v : R) :
  M = 0 -> Ms <> 0 ->
  raises (KMR_strain M Ms Rs dM eps Dist v) s ZeroDivisionError.
Proof.
  intros -> HMs. unfold KMR_strain.
  eapply raises_bind_r; [now apply tidal_line_zero|].
  destruct (Req_dec_T (c s) 0) as [Hc|Hc].
  - apply raises_bind_l. now apply gravitational_line_raises.
  - eapply raises_bind_r; [now apply gravitational_line_evals|].
    assert (Hpi : 3 * np_pi <> 0)
      by (unfold np_pi; generalize PI_RGT_0; lra).
    apply raises_bind_l.
    do 4 apply raises_binop_l.
    eapply raises_binop_r; [py_run; auto|].
    eapply raises_binop; [apply evals_lit | apply evals_lit | apply float_div_zero].
Qed.






End Domain.



(** ** The power-law form *)

Lemma Rpower_Rinv (x y : R) : 0 < x -> Rpower (/ x) y = / Rpower x y.
Proof.
  intros Hx. unfold Rpower. rewrite ln_Rinv by exact Hx.
  rewrite <- exp_Ropp. f_equal. ring.
Qed.

Lemma Rpower_neq_0 (x y : R) : Rpower x y <> 0.
Proof. unfold Rpower. apply Rgt_not_eq, exp_pos. Qed.

Lemma Rpower_pos (x y : R) : 0 < Rpower x y.
Proof. unfold Rpower. apply exp_pos. Qed.

Lemma Rpower_ratio_third (M Ms : R) :
  0 < M -> 0 < Ms ->
  Rpower (M / Ms) (1 / 3) = Rpower M (1 / 3) / Rpower Ms (1 / 3).
Proof.
  intros HM HMs. unfold Rdiv.
  rewrite <- Rpower_mult_distr by (try assumption; now apply Rinv_0_lt_compat).
  now rewrite Rpower_Rinv.
Qed.

(** The masses in [deltaM / M_pbh] and [M_pbh / D] cancel, and what is left
    of the black-hole mass is its power 2/3. *)
Lemma strain_product_power_law (G0 c0 M Ms Rs dM eps Dist v : R) :
  0 < M -> 0 < Ms -> Rs <> 0 -> Dist <> 0 -> G0 <> 0 -> c0 <> 0 ->
  strain_product G0 c0 M Ms Rs dM eps Dist v =
  1e40 * 16 * eps * dM * G0 ^ 2 * v ^ 2 * Rpower M (2 / 3) * Rpower Ms (1 / 3) /
  (3 * PI * c0 ^ 8 * Rs * Dist).
Proof.
  intros HM HMs HRs HD HG Hc.
  unfold strain_product, tidal_radius, gravitational_radius.
  rewrite Rpower_ratio_third by assumption.
  rewrite <- (Rpower_two_thirds M HM).
  pose proof (Rpower_neq_0 M (1 / 3)) as HpM.
  pose proof (Rpower_neq_0 Ms (1 / 3)) as HpMs.
  pose proof PI_neq0 as Hpi.
  assert (HM0 : M <> 0) by lra.
  set (pM := Rpower M (1 / 3)) in *. set (pMs := Rpower Ms (1 / 3)) in *.
  clearbody pM pMs.
  field. repeat split; assumption.
Qed.

Lemma KMR_strain_power_law_evals (s : globals) (M Ms Rs dM eps Dist v : R) :
  0 < M -> 0 < Ms -> Rs <> 0 -> Dist <> 0 -> G s <> 0 -> c s <> 0 ->
  evals (KMR_strain M Ms Rs dM eps Dist v) s
    (1e40 * 16 * eps * dM * G s ^ 2 * v ^ 2 * Rpower M (2 / 3) * Rpower Ms (1 / 3) /
     (3 * PI * c s ^ 8 * Rs * Dist)).
Proof.
  intros HM HMs HRs HD HG Hc.
  rewrite <- strain_product_power_law by assumption.
  now apply KMR_strain_evals.
Qed.

(** X2: on positive masses the black-hole mass of [deltaM / M_pbh] cancels
    the one of [M_pbh / D], and the strain is the power law
    1e40 * 16 eps dM G^2 v_ej^2 M^(2/3) M_star^(1/3) / (3 pi c^8 R_star D). *)
Theorem KMR_strain_power_law (s : globals) (M Ms Rs dM eps Dist v : R) :
  0 < M -> 0 < Ms -> Rs <> 0 -> Dist <> 0 -> G s <> 0 -> c s <> 0 ->
  evals (KMR_strain M Ms Rs dM eps Dist v) s
    (1e40 * 16 * eps * dM * G s ^ 2 * v ^ 2 * Rpower M (2 / 3) * Rpower Ms (1 / 3) /
     (3 * PI * c s ^ 8 * Rs * Dist)) /\
  strain_product (G s) (c s) M Ms Rs dM eps Dist v =
    1e40 * 16 * eps * dM * G s ^ 2 * v ^ 2 * Rpower M (2 / 3) * Rpower Ms (1 / 3) /
    (3 * PI * c s ^ 8 * Rs * Dist).
Proof.
  intros HM HMs HRs HD HG Hc. split.
  - now apply KMR_strain_power_law_evals.
  - now apply strain_product_power_law.
Qed.

Lemma pow2_pos (x : R) : x <> 0 -> 0 < x ^ 2.
Proof. intros Hx. replace (x ^ 2) with (Rsqr x) by (unfold Rsqr; ring). now apply Rlt_0_sqr. Qed.

Lemma evals_eq {A} (m : py A) (s : globals) (v w : A) :
  evals m s v -> v = w -> evals m s w.
Proof. intros H <-. exact H. Qed.

(** X3: the strain goes as the square of the ejecta velocity (so its sign
    does not matter and no velocity gives no strain), as the inverse of the
    stellar radius and as the power 1/3 of the stellar mass, all other inputs
    held fixed. *)
Theorem KMR_strain_other_scalings (s : globals) (M Ms Rs dM eps Dist v : R) :
  0 < M -> 0 < Ms -> Rs <> 0 -> Dist <> 0 -> G s <> 0 -> c s <> 0 ->
  exists h,
    evals (KMR_strain M Ms Rs dM eps Dist v) s h /\
    (forall k, evals (KMR_strain M Ms Rs dM eps Dist (k * v)) s (k ^ 2 * h)) /\
    (forall k, k <> 0 ->
       evals (KMR_strain M Ms (k * Rs) dM eps Dist v) s (h / k)) /\
    (forall k, 0 < k ->
       evals (KMR_strain M (k * Ms) Rs dM eps Dist v) s (Rpower k (1 / 3) * h)).
Proof.
  intros HM HMs HRs HD HG Hc.
  assert (Hc8 : c s ^ 8 <> 0) by now apply pow_nonzero.
  pose proof PI_neq0 as Hpi.
  eexists. split; [now apply KMR_strain_power_law_evals|]. split; [|split].
  - intros k. eapply evals_eq; [now apply KMR_strain_power_law_evals|].
    field. repeat split; assumption.
  - intros k Hk. eapply evals_eq.
    + apply KMR_strain_power_law_evals; try assumption.
      now apply Rmult_integral_contrapositive_currified.
    + field. repeat split; assumption.
  - intros k Hk. eapply evals_eq.
    + apply KMR_strain_power_law_evals; try assumption.
      now apply Rmult_lt_0_compat.
    + rewrite <- (Rpower_mult_distr k Ms) by assumption.
      field. repeat split; assumption.
Qed.

Lemma KMR_strain_other_scalings_witness :
  (0 < 1e22 /\ 0 < 2.0e33 /\ 7.0e10 <> 0 /\ 3.1e26 <> 0 /\
   G module_globals <> 0 /\ c module_globals <> 0) /\
  exists h,
    evals (KMR_strain 1e22 2.0e33 7.0e10 2.0e30 0.02 3.1e26 2.9979e9)
          module_globals h /\
    (forall k,
       evals (KMR_strain 1e22 2.0e33 7.0e10 2.0e30 0.02 3.1e26 (k * 2.9979e9))
             module_globals (k ^ 2 * h)) /\
    (forall k, k <> 0 ->
       evals (KMR_strain 1e22 2.0e33 (k * 7.0e10) 2.0e30 0.02 3.1e26 2.9979e9)
             module_globals (h / k)) /\
    (forall k, 0 < k ->
       evals (KMR_strain 1e22 (k * 2.0e33) 7.0e10 2.0e30 0.02 3.1e26 2.9979e9)
             module_globals (Rpower k (1 / 3) * h)).
Proof.
  assert (H1 : 0 < 1e22) by lra.
  assert (H2 : 0 < 2.0e33) by lra.
  assert (H3 : 7.0e10 <> 0) by lra.
  assert (H4 : 3.1e26 <> 0) by lra.
  assert (H5 : G module_globals <> 0) by apply Rgt_not_eq, G_module_pos.
  assert (H6 : c module_globals <> 0) by apply Rgt_not_eq, c_module_pos.
  split; [repeat split; assumption|].
  exact (KMR_strain_other_scalings module_globals
           1e22 2.0e33 7.0e10 2.0e30 0.02 3.1e26 2.9979e9 H1 H2 H3 H4 H5 H6).
Defined.

(** X4: the function takes no absolute value and checks neither the
    anisotropy factor nor the ejected mass: on positive masses, radius and
    distance and a velocity that is not zero, the strain is a positive
    constant times [epsilon * deltaM], hence negative exactly when the two
    have opposite signs and zero exactly when one of them is zero. *)
Theorem KMR_strain_sign (s : globals) (M Ms Rs Dist v : R) :
  0 < M -> 0 < Ms -> 0 < Rs -> 0 < Dist -> v <> 0 -> 0 < G s -> c s <> 0 ->
  exists kappa,
    0 < kappa /\
    forall dM eps,
      evals (KMR_strain M Ms Rs dM eps Dist v) s (kappa * (eps * dM)).
Proof.
  intros HM HMs HRs HD Hv HG Hc.
  assert (Hc8 : 0 < c s ^ 8).
  { replace (c s ^ 8) with ((c s ^ 4) ^ 2) by ring.
    apply pow2_pos. now apply pow_nonzero. }
  assert (Hv2 : 0 < v ^ 2) by now apply pow2_pos.
  assert (HG2 : 0 < G s ^ 2) by now apply pow_lt.
  pose proof PI_RGT_0 as Hpi.
  pose proof (Rpower_pos M (2 / 3)) as HpM.
  pose proof (Rpower_pos Ms (1 / 3)) as HpMs.
  exists (1e40 * 16 * G s ^ 2 * v ^ 2 * Rpower M (2 / 3) * Rpower Ms (1 / 3) /
          (3 * PI * c s ^ 8 * Rs * Dist)).
  split.
  - apply Rdiv_lt_0_compat.
    + assert (H0 : 0 < 1e40 * 16) by lra.
      do 4 (apply Rmult_lt_0_compat; [|assumption]). exact H0.
    + assert (H0 : 0 < 3 * PI) by lra.
      do 3 (apply Rmult_lt_0_compat; [|assumption]). exact H0.
  - intros dM eps. eapply evals_eq.
    + apply KMR_strain_power_law_evals; lra.
    + field. repeat split; lra.
Qed.

Lemma KMR_strain_sign_witness :
  (0 < 1e22 /\ 0 < 2.0e33 /\ 0 < 7.0e10 /\ 0 < 3.1e26 /\ 2.9979e9 <> 0 /\
   0 < G module_globals /\ c module_globals <> 0) /\
  exists kappa,
    0 < kappa /\
    forall dM eps,
      evals (KMR_strain 1e22 2.0e33 7.0e10 dM eps 3.1e26 2.9979e9) module_globals
            (kappa * (eps * dM)).
Proof.
  assert (H1 : 0 < 1e22) by lra.
  assert (H2 : 0 < 2.0e33) by lra.
  assert (H3 : 0 < 7.0e10) by lra.
  assert (H4 : 0 < 3.1e26) by lra.
  assert (H5 : 2.9979e9 <> 0) by lra.
  assert (H6 : c module_globals <> 0) by apply Rgt_not_eq, c_module_pos.
  split; [repeat split; try assumption; exact G_module_pos|].
  exact (KMR_strain_sign module_globals 1e22 2.0e33 7.0e10 3.1e26 2.9979e9
           H1 H2 H3 H4 H5 G_module_pos H6).
Defined.

Lemma KMR_strain_power_law_witness :
  (0 < 1e22 /\ 0 < 2.0e33 /\ 7.0e10 <> 0 /\ 3.1e26 <> 0 /\
   G module_globals <> 0 /\ c module_globals <> 0) /\
  evals (KMR_strain 1e22 2.0e33 7.0e10 2.0e30 0.02 3.1e26 2.9979e9) module_globals
    (1e40 * 16 * 0.02 * 2.0e30 * G module_globals ^ 2 * 2.9979e9 ^ 2 *
     Rpower 1e22 (2 / 3) * Rpower 2.0e33 (1 / 3) /
     (3 * PI * c module_globals ^ 8 * 7.0e10 * 3.1e26)).
Proof.
  assert (H1 : 0 < 1e22) by lra.
  assert (H2 : 0 < 2.0e33) by lra.
  assert (H3 : 7.0e10 <> 0) by lra.
  assert (H4 : 3.1e26 <> 0) by lra.
  assert (H5 : G module_globals <> 0) by apply Rgt_not_eq, G_module_pos.
  assert (H6 : c module_globals <> 0) by apply Rgt_not_eq, c_module_pos.
  split; [repeat split; assumption|].
  exact (proj1 (KMR_strain_power_law module_globals
                  1e22 2.0e33 7.0e10 2.0e30 0.02 3.1e26 2.9979e9
                  H1 H2 H3 H4 H5 H6)).
Defined.

(** ** The mass at which a strain level is reached *)

Lemma KMR_strain_mass_coefficient (s : globals) (M Ms Rs dM eps Dist v : R) :
  0 < M -> 0 < Ms -> Rs <> 0 -> Dist <> 0 -> G s <> 0 -> c s <> 0 ->
  evals (KMR_strain M Ms Rs dM eps Dist v) s
    (mass_coefficient (G s) (c s) Ms Rs dM eps Dist v * Rpower M (2 / 3)).
Proof.
  intros HM HMs HRs HD HG Hc.
  eapply evals_eq; [now apply KMR_strain_power_law_evals|].
  unfold mass_coefficient.
  assert (Hc8 : c s ^ 8 <> 0) by now apply pow_nonzero.
  pose proof PI_neq0 as Hpi.
  field. repeat split; assumption.
Qed.

Lemma mass_coefficient_pos (G0 c0 Ms Rs dM eps Dist v : R) :
  0 < G0 -> c0 <> 0 -> 0 < Rs -> 0 < Dist -> v <> 0 -> 0 < eps * dM ->
  0 < mass_coefficient G0 c0 Ms Rs dM eps Dist v.
Proof.
  intros HG Hc HRs HD Hv Hed. unfold mass_coefficient.
  assert (Hc8 : 0 < c0 ^ 8).
  { replace (c0 ^ 8) with ((c0 ^ 4) ^ 2) by ring.
    apply pow2_pos. now apply pow_nonzero. }
  assert (Hv2 : 0 < v ^ 2) by now apply pow2_pos.
  assert (HG2 : 0 < G0 ^ 2) by now apply pow_lt.
  pose proof PI_RGT_0 as Hpi.
  pose proof (Rpower_pos Ms (1 / 3)) as HpMs.
  apply Rdiv_lt_0_compat.
  - replace (1e40 * 16 * eps * dM) with (1e40 * 16 * (eps * dM)) by ring.
    assert (H0 : 0 < 1e40 * 16 * (eps * dM))
      by (apply Rmult_lt_0_compat; [lra | exact Hed]).
    do 3 (apply Rmult_lt_0_compat; [|assumption]). exact H0.
  - assert (H0 : 0 < 3 * PI) by lra.
    do 3 (apply Rmult_lt_0_compat; [|assumption]). exact H0.
Qed.

Lemma Rpower_two_thirds_inverse (x : R) :
  0 < x -> Rpower (Rpower x (3 / 2)) (2 / 3) = x.
Proof.
  intros Hx. rewrite Rpower_mult.
  replace (3 / 2 * (2 / 3)) with 1 by field. now apply Rpower_1.
Qed.

(** X5: with positive parameters, every strictly positive strain level is
    reached at a black-hole mass, and the strain of a positive mass is at or
    above (resp. above) the level exactly when the mass is at or above (resp.
    above) that one, so the level is reached at no other mass. *)
Theorem strain_level_mass (s : globals) (Ms Rs dM eps Dist v t : R) :
  0 < Ms -> 0 < Rs -> 0 < Dist -> v <> 0 -> 0 < eps * dM ->
  0 < G s -> c s <> 0 -> 0 < t ->
  exists Mt,
    0 < Mt /\
    evals (KMR_strain Mt Ms Rs dM eps Dist v) s t /\
    forall M, 0 < M ->
      exists h,
        evals (KMR_strain M Ms Rs dM eps Dist v) s h /\
        (t <= h <-> Mt <= M) /\ (t < h <-> Mt < M).
Proof.
  intros HMs HRs HD Hv Hed HG Hc Ht.
  pose proof (mass_coefficient_pos (G s) (c s) Ms Rs dM eps Dist v
                HG Hc HRs HD Hv Hed) as HA.
  set (A := mass_coefficient (G s) (c s) Ms Rs dM eps Dist v) in *.
  assert (HtA : 0 < t / A) by now apply Rdiv_lt_0_compat.
  set (Mt := Rpower (t / A) (3 / 2)).
  assert (HMt : 0 < Mt) by apply Rpower_pos.
  assert (Hlevel : A * Rpower Mt (2 / 3) = t).
  { unfold Mt. rewrite Rpower_two_thirds_inverse by exact HtA. field. lra. }
  exists Mt. split; [exact HMt|]. split.
  - eapply evals_eq; [apply KMR_strain_mass_coefficient; lra|]. exact Hlevel.
  - intros M HM. eexists. split; [apply KMR_strain_mass_coefficient; lra|].
    fold A. rewrite <- Hlevel.
    assert (Hup : Mt < M -> Rpower Mt (2 / 3) < Rpower M (2 / 3))
      by (intros L; apply Rlt_Rpower_l; lra).
    assert (Hdown : M < Mt -> Rpower M (2 / 3) < Rpower Mt (2 / 3))
      by (intros L; apply Rlt_Rpower_l; lra).
    split; split.
    + intros Hle. destruct (Rle_lt_dec Mt M) as [L|L]; [exact L|].
      exfalso. specialize (Hdown L). nra.
    + intros [L| ->]; [specialize (Hup L); nra | lra].
    + intros Hlt. destruct (Rlt_le_dec Mt M) as [L|[L|E]]; [exact L | |].
      * exfalso. specialize (Hdown L). nra.
      * exfalso. rewrite E in Hlt. lra.
    + intros L. specialize (Hup L). nra.
Qed.

Lemma strain_level_mass_witness :
  (0 < 2.0e33 /\ 0 < 7.0e10 /\ 0 < 3.1e26 /\ 2.9979e9 <> 0 /\
   0 < 0.02 * 2.0e30 /\ 0 < G module_globals /\ c module_globals <> 0 /\
   0 < 1e-23) /\
  exists Mt,
    0 < Mt /\
    evals (KMR_strain Mt 2.0e33 7.0e10 2.0e30 0.02 3.1e26 2.9979e9)
          module_globals 1e-23 /\
    forall M, 0 < M ->
      exists h,
        evals (KMR_strain M 2.0e33 7.0e10 2.0e30 0.02 3.1e26 2.9979e9)
              module_globals h /\
        (1e-23 <= h <-> Mt <= M) /\ (1e-23 < h <-> Mt < M).
Proof.
  assert (H1 : 0 < 2.0e33) by lra.
  assert (H2 : 0 < 7.0e10) by lra.
  assert (H3 : 0 < 3.1e26) by lra.
  assert (H4 : 2.9979e9 <> 0) by lra.
  assert (H5 : 0 < 0.02 * 2.0e30) by lra.
  assert (H6 : c module_globals <> 0) by apply Rgt_not_eq, c_module_pos.
  assert (H7 : 0 < 1e-23) by lra.
  split; [repeat split; try assumption; exact G_module_pos|].
  exact (strain_level_mass module_globals 2.0e33 7.0e10 2.0e30 0.02 3.1e26
           2.9979e9 1e-23 H1 H2 H3 H4 H5 G_module_pos H6 H7).
Defined.

(** ** The sweep in any module state *)

Lemma call_KMR_strain_evals (s : globals) (m : R) :
  sweep_ready s -> 0 < m -> evals (call_KMR_strain m) s (state_strain s m).
Proof.
  intros (HG & Hc & HMs & HRs & HD) Hm. unfold call_KMR_strain.
  do 6 (eapply evals_bind; [apply evals_glob|]).
  now apply KMR_strain_evals.
Qed.

Lemma call_KMR_strain_raises (s : globals) (m : R) :
  sweep_ready s -> m <= 0 ->
  raises (call_KMR_strain m) s
         (if Rlt_dec m 0 then NotReal else ZeroDivisionError).
Proof.
  intros (HG & Hc & HMs & HRs & HD) Hm. unfold call_KMR_strain.
  do 6 (eapply raises_bind_r; [apply evals_glob|]).
  destruct (Rlt_dec m 0) as [L|N].
  - apply KMR_strain_opposite_signs. nra.
  - apply KMR_strain_zero_M_pbh; lra.
Qed.

(** A comprehension stops at the first call that raises. *)
Lemma raises_comprehension {A B} (f : A -> py B) (g : A -> B) s
      (pre : list A) (x : A) (post : list A) e :
  (forall y, In y pre -> evals (f y) s (g y)) ->
  raises (f x) s e ->
  raises (comprehension f (pre ++ x :: post)) s e.
Proof.
  intros Hpre Hx. induction pre as [|y pre IH]; simpl.
  - now apply raises_bind_l.
  - eapply raises_bind_r; [apply Hpre; now left|].
    apply raises_bind_l. apply IH. intros z Hz. apply Hpre. now right.
Qed.

Lemma Forall2_map_evals {A B} (f : A -> py B) (g : A -> B) s (l : list A) :
  (forall x, In x l -> evals (f x) s (g x)) ->
  Forall2 (fun x y => evals (f x) s y) l (map g l).
Proof.
  induction l as [|x t IH]; intros H; simpl; constructor.
  - apply H. now left.
  - apply IH. intros y Hy. apply H. now right.
Qed.

Lemma strains_evals_any_state (s : globals) :
  sweep_ready s -> Forall (fun m => 0 < m) (M_pbh s) ->
  evals strains s (map (state_strain s) (M_pbh s)).
Proof.
  intros Hs Hpos. rewrite Forall_forall in Hpos.
  unfold strains. eapply evals_bind; [apply evals_glob|].
  apply evals_comprehension. intros m Hm.
  apply call_KMR_strain_evals; auto.
Qed.

Lemma strains_raises_any_state (s : globals) (pre : list R) (m : R) (post : list R) :
  sweep_ready s ->
  M_pbh s = pre ++ m :: post -> Forall (fun m => 0 < m) pre -> m <= 0 ->
  raises strains s (if Rlt_dec m 0 then NotReal else ZeroDivisionError).
Proof.
  intros Hs E Hpre Hm. rewrite Forall_forall in Hpre.
  unfold strains. eapply raises_bind_r; [apply evals_glob|].
  rewrite E. apply (raises_comprehension _ (state_strain s)).
  - intros y Hy. apply call_KMR_strain_evals; auto.
  - now apply call_KMR_strain_raises.
Qed.

(** The first mass of a list that is not positive. *)
Lemma first_nonpositive (l : list R) :
  Exists (fun m => m <= 0) l ->
  exists pre m post,
    l = pre ++ m :: post /\ Forall (fun m => 0 < m) pre /\ m <= 0.
Proof.
  induction l as [|x t IH]; intros H; [inversion H|].
  destruct (Rle_lt_dec x 0) as [Hx|Hx].
  - exists [], x, t. repeat split; [constructor | exact Hx].
  - assert (Ht : Exists (fun m => m <= 0) t)
      by (inversion H as [? ? Hh|]; [lra | assumption]).
    destruct (IH Ht) as (pre & m & post & -> & Hpre & Hm).
    exists (x :: pre), m, post. repeat split; [now constructor | exact Hm].
Qed.

(** X6: in any module state whose constants and parameters let the model
    run (G, c, R_star, D not zero, M_star positive), a sweep that returns a
    sequence of real numbers ran over strictly positive masses only, and the
    sequence holds one strain per grid mass, in grid order.  A grid that holds
    a mass that is zero or negative never gives a sequence of real numbers. *)
Theorem strains_any_state (s : globals) (ss : list R) :
  sweep_ready s -> evals strains s ss ->
  Forall (fun m => 0 < m) (M_pbh s) /\
  Forall2 (fun m h => evals (call_KMR_strain m) s h) (M_pbh s) ss.
Proof.
  intros Hs He.
  assert (Hpos : Forall (fun m => 0 < m) (M_pbh s)).
  { destruct (Forall_Exists_dec (fun m => 0 < m) (fun m => Rlt_dec 0 m) (M_pbh s))
      as [F|E]; [exact F|].
    exfalso.
    assert (Hex : Exists (fun m => m <= 0) (M_pbh s))
      by (apply Exists_exists in E; destruct E as (m & Hin & Hm);
          apply Exists_exists; exists m; split; [exact Hin | lra]).
    destruct (first_nonpositive _ Hex) as (pre & m & post & Eq & Hpre & Hm).
    exact (raises_not_evals _ _ _ _
             (strains_raises_any_state s pre m post Hs Eq Hpre Hm) He). }
  split; [exact Hpos|].
  rewrite (evals_unique _ _ _ _ He (strains_evals_any_state s Hs Hpos)).
  rewrite Forall_forall in Hpos.
  apply Forall2_map_evals. intros m Hm.
  apply call_KMR_strain_evals; auto.
Qed.

(** ** The reported range in any module state *)

Lemma fold_left_Rmin_spec (t : list R) (x : R) :
  In (fold_left Rmin t x) (x :: t) /\
  forall y, In y (x :: t) -> fold_left Rmin t x <= y.
Proof.
  revert x. induction t as [|a t IH]; intros x; simpl.
  - split; [now left|]. intros y [<-|[]]. lra.
  - destruct (IH (Rmin x a)) as [Hin Hle]. split.
    + destruct Hin as [E|Hin]; [|now right; right].
      rewrite <- E. unfold Rmin. destruct (Rle_dec x a); [now left | right; now left].
    + intros y Hy.
      assert (Hm : fold_left Rmin t (Rmin x a) <= Rmin x a) by (apply Hle; now left).
      destruct Hy as [<-|[<-|Hy]].
      * pose proof (Rmin_l x a). lra.
      * pose proof (Rmin_r x a). lra.
      * apply Hle. now right.
Qed.

Lemma fold_left_Rmax_spec (t : list R) (x : R) :
  In (fold_left Rmax t x) (x :: t) /\
  forall y, In y (x :: t) -> y <= fold_left Rmax t x.
Proof.
  revert x. induction t as [|a t IH]; intros x; simpl.
  - split; [now left|]. intros y [<-|[]]. lra.
  - destruct (IH (Rmax x a)) as [Hin Hle]. split.
    + destruct Hin as [E|Hin]; [|now right; right].
      rewrite <- E. unfold Rmax. destruct (Rle_dec x a); [right; now left | now left].
    + intros y Hy.
      assert (Hm : Rmax x a <= fold_left Rmax t (Rmax x a)) by (apply Hle; now left).
      destruct Hy as [<-|[<-|Hy]].
      * pose proof (Rmax_l x a). lra.
      * pose proof (Rmax_r x a). lra.
      * apply Hle. now right.
Qed.

(** X7: the diagnostic of an empty grid fails with the [ValueError] of
    [np.min]; over a grid of positive masses that is not empty, in whatever
    order, the two reported numbers are strains of the sweep and every strain
    of the sweep lies between them. *)
Theorem strain_range_any_state (s : globals) :
  (M_pbh s = [] -> raises strain_range s ValueError) /\
  (sweep_ready s -> M_pbh s <> [] -> Forall (fun m => 0 < m) (M_pbh s) ->
   exists ss lo hi,
     evals strains s ss /\
     evals strain_range s (lo, hi) /\
     In lo ss /\ In hi ss /\
     forall h, In h ss -> lo <= h <= hi).
Proof.
  split.
  - intros E. unfold strain_range.
    eapply raises_bind_r.
    { unfold strains. eapply evals_bind; [apply evals_glob|].
      rewrite E. simpl. apply evals_ret. }
    apply raises_bind_l. reflexivity.
  - intros Hs Hne Hpos.
    pose proof (strains_evals_any_state s Hs Hpos) as He.
    destruct (map (state_strain s) (M_pbh s)) as [|x t] eqn:E.
    { apply map_eq_nil in E. contradiction. }
    destruct (fold_left_Rmin_spec t x) as [Hminin Hminle].
    destruct (fold_left_Rmax_spec t x) as [Hmaxin Hmaxle].
    exists (x :: t), (fold_left Rmin t x), (fold_left Rmax t x).
    split; [exact He|]. split; [|split; [exact Hminin|split; [exact Hmaxin|]]].
    + unfold strain_range.
      eapply evals_bind; [exact He|].
      eapply evals_bind; [reflexivity|].
      eapply evals_bind; [reflexivity|].
      apply evals_ret.
    + intros h Hh. split; [now apply Hminle | now apply Hmaxle].
Qed.

(** ** A geometric grid gives a geometric strain sequence *)

Lemma state_strain_scale (s : globals) (r m : R) :
  sweep_ready s -> 0 < r -> 0 < m ->
  state_strain s (r * m) = Rpower r (2 / 3) * state_strain s m.
Proof.
  intros (HG & Hc & HMs & HRs & HD) Hr Hm. unfold state_strain.
  rewrite !strain_product_power_law
    by (try assumption; now apply Rmult_lt_0_compat).
  rewrite <- (Rpower_mult_distr r m) by assumption.
  assert (Hc8 : c s ^ 8 <> 0) by now apply pow_nonzero.
  pose proof PI_neq0 as Hpi.
  field. repeat split; assumption.
Qed.

(** X8: over a grid in which each mass is [r] times the one before, each
    strain of the sweep is [r ^ (2/3)] times the one before: the points of the
    log-log plot lie on a straight line of slope 2/3. *)
Theorem strains_geometric (s : globals) (r : R) :
  sweep_ready s -> 0 < r ->
  Forall (fun m => 0 < m) (M_pbh s) ->
  (forall i, (S i < length (M_pbh s))%nat ->
     nth (S i) (M_pbh s) 0 = r * nth i (M_pbh s) 0) ->
  exists ss,
    evals strains s ss /\
    length ss = length (M_pbh s) /\
    forall i, (S i < length ss)%nat ->
      nth (S i) ss 0 = Rpower r (2 / 3) * nth i ss 0.
Proof.
  intros Hs Hr Hpos Hgeo.
  exists (map (state_strain s) (M_pbh s)).
  split; [now apply strains_evals_any_state|].
  split; [apply length_map|].
  intros i Hi. rewrite length_map in Hi.
  rewrite !(nth_map_in (state_strain s) _ 0) by lia.
  rewrite Hgeo by exact Hi.
  apply state_strain_scale; try assumption.
  rewrite Forall_forall in Hpos. apply Hpos, nth_In. lia.
Qed.

Lemma module_sweep_ready : sweep_ready module_globals.
Proof.
  unfold sweep_ready.
  destruct module_parameters as (-> & -> & _ & _ & -> & _).
  rewrite G_module, c_module. repeat split; lra.
Qed.

Lemma M_pbh_all_positive : Forall (fun m => 0 < m) (M_pbh module_globals).
Proof.
  apply Forall_forall. intros m Hm. rewrite M_pbh_module in Hm.
  apply np_logspace_positive in Hm; [exact Hm | lia].
Qed.

(** Each grid mass of the script is [10 ** (5/199)] times the one before. *)
Lemma M_pbh_ratio (i : nat) :
  (S i < length (M_pbh module_globals))%nat ->
  nth (S i) (M_pbh module_globals) 0 =
  Rpower 10 (5 / 199) * nth i (M_pbh module_globals) 0.
Proof.
  rewrite M_pbh_length. intros Hi. rewrite M_pbh_module.
  rewrite !np_logspace_nth by lia.
  rewrite <- Rpower_plus. f_equal. unfold grid_exponent.
  replace (INR (200 - 1)) with 199 by (rewrite INR_IZR_INZ; reflexivity).
  rewrite S_INR. lra.
Qed.

Lemma strains_geometric_witness :
  (sweep_ready module_globals /\ 0 < Rpower 10 (5 / 199) /\
   Forall (fun m => 0 < m) (M_pbh module_globals) /\
   forall i, (S i < length (M_pbh module_globals))%nat ->
     nth (S i) (M_pbh module_globals) 0 =
     Rpower 10 (5 / 199) * nth i (M_pbh module_globals) 0) /\
  exists ss,
    evals strains module_globals ss /\
    length ss = length (M_pbh module_globals) /\
    forall i, (S i < length ss)%nat ->
      nth (S i) ss 0 = Rpower (Rpower 10 (5 / 199)) (2 / 3) * nth i ss 0.
Proof.
  split.
  - split; [exact module_sweep_ready|]. split; [apply Rpower_pos|].
    split; [exact M_pbh_all_positive | exact M_pbh_ratio].
  - exact (strains_geometric module_globals (Rpower 10 (5 / 199))
             module_sweep_ready (Rpower_pos 10 (5 / 199))
             M_pbh_all_positive M_pbh_ratio).
Defined.

Lemma strains_any_state_witness :
  (sweep_ready module_globals /\
   evals strains module_globals (map default_strain (M_pbh module_globals))) /\
  Forall (fun m => 0 < m) (M_pbh module_globals) /\
  Forall2 (fun m h => evals (call_KMR_strain m) module_globals h)
          (M_pbh module_globals) (map default_strain (M_pbh module_globals)).
Proof.
  split; [split; [exact module_sweep_ready | exact strains_module]|].
  exact (strains_any_state module_globals _ module_sweep_ready strains_module).
Defined.

Lemma strain_range_any_state_witness :
  sweep_ready module_globals /\ M_pbh module_globals <> [] /\
  Forall (fun m => 0 < m) (M_pbh module_globals) /\
  exists ss lo hi,
    evals strains module_globals ss /\
    evals strain_range module_globals (lo, hi) /\
    In lo ss /\ In hi ss /\
    forall h, In h ss -> lo <= h <= hi.
Proof.
  assert (Hne : M_pbh module_globals <> []).
  { intros E. apply (f_equal (@length R)) in E.
    rewrite M_pbh_length in E. discriminate E. }
  split; [exact module_sweep_ready|]. split; [exact Hne|].
  split; [exact M_pbh_all_positive|].
  exact (proj2 (strain_range_any_state module_globals)
           module_sweep_ready Hne M_pbh_all_positive).
Defined.

(** ** The numbers of the diagnostic printout *)

(** The strain under the parameters of the script as a rational multiple of
    [M / (pi * (M / M_star) ^ (1/3))]. *)
Lemma default_strain_rational (m : R) :
  0 < m ->
  default_strain m =
  143697679 / 2382002283778965613656141959531250e22 * m /
  (PI * Rpower (m / 2.0e33) (1 / 3)).
Proof.
  intros Hm. unfold default_strain, strain_product, tidal_radius,
    gravitational_radius.
  destruct module_parameters as (-> & -> & -> & -> & -> & ->).
  rewrite G_module, c_module.
  pose proof PI_neq0 as Hpi.
  pose proof (Rpower_neq_0 (m / 2.0e33) (1 / 3)) as Hcb.
  set (cb := Rpower _ _) in *. clearbody cb.
  set (p := PI) in *. clearbody p.
  field_simplify_eq; [lra | repeat split; lra].
Qed.

Lemma default_strain_between (m a b : R) :
  0 < m -> 0 < a -> a < Rpower (m / 2.0e33) (1 / 3) < b ->
  143697679 / 2382002283778965613656141959531250e22 * m / (3.141592653590 * b)
  < default_strain m <
  143697679 / 2382002283778965613656141959531250e22 * m / (3.141592653589 * a).
Proof.
  intros Hm Ha [Hlo Hhi]. rewrite default_strain_rational by exact Hm.
  pose proof PI_enclosure as [Hp1 Hp2].
  set (cb := Rpower _ _) in *. clearbody cb.
  set (p := PI) in *. clearbody p.
  set (K := 143697679 / 2382002283778965613656141959531250e22 * m).
  assert (HK : 0 < K) by (unfold K; apply Rmult_lt_0_compat; lra).
  clearbody K.
  assert (H1 : 0 < p * cb) by nra.
  assert (H2 : p * cb < 3.141592653590 * b) by nra.
  assert (H3 : 3.141592653589 * a < p * cb) by nra.
  assert (H4 : 0 < 3.141592653589 * a) by nra.
  unfold Rdiv. split.
  - apply Rmult_lt_compat_l; [exact HK|].
    apply Rinv_lt_contravar; [nra | exact H2].
  - apply Rmult_lt_compat_l; [exact HK|].
    apply Rinv_lt_contravar; [nra | exact H3].
Qed.

Lemma default_strain_first : 5.2123e-24 < default_strain 1e20 < 5.2124e-24.
Proof.
  assert (Hcb : 3.68403149e-5 < Rpower (1e20 / 2.0e33) (1 / 3) < 3.68403150e-5)
    by (apply cube_root_enclosure; lra).
  assert (Hm : 0 < 1e20) by lra.
  assert (Ha : 0 < 3.68403149e-5) by lra.
  pose proof (default_strain_between _ _ _ Hm Ha Hcb) as [H1 H2].
  split; [eapply Rlt_trans; [|exact H1] | eapply Rlt_trans; [exact H2|]]; lra.
Qed.

Lemma default_strain_last : 1.12296e-20 < default_strain 1e25 < 1.12297e-20.
Proof.
  assert (Hcb : 1.70997594e-3 < Rpower (1e25 / 2.0e33) (1 / 3) < 1.70997595e-3)
    by (apply cube_root_enclosure; lra).
  assert (Hm : 0 < 1e25) by lra.
  assert (Ha : 0 < 1.70997594e-3) by lra.
  pose proof (default_strain_between _ _ _ Hm Ha Hcb) as [H1 H2].
  split; [eapply Rlt_trans; [|exact H1] | eapply Rlt_trans; [exact H2|]]; lra.
Qed.

Lemma M_pbh_first : nth 0 (M_pbh module_globals) 0 = 1e20.
Proof.
  rewrite M_pbh_module, np_logspace_first by lia.
  replace 20 with (INR 20) by (rewrite INR_IZR_INZ; reflexivity).
  rewrite Rpower_10_nat. lra.
Qed.

Lemma M_pbh_last : nth 199 (M_pbh module_globals) 0 = 1e25.
Proof.
  rewrite M_pbh_module. change 199%nat with (200 - 1)%nat.
  rewrite np_logspace_last by lia.
  replace 25 with (INR 25) by (rewrite INR_IZR_INZ; reflexivity).
  rewrite Rpower_10_nat. lra.
Qed.

Lemma strains_nth (i : nat) :
  (i < 200)%nat ->
  nth i (map default_strain (M_pbh module_globals)) 0 =
  default_strain (nth i (M_pbh module_globals) 0).
Proof.
  intros Hi. apply nth_map_in. rewrite M_pbh_length. exact Hi.
Qed.

Lemma strain_range_module :
  evals strain_range module_globals
        (default_strain 1e20, default_strain 1e25).
Proof.
  unfold strain_range.
  assert (Hne : map default_strain (M_pbh module_globals) <> []).
  { intros E. apply (f_equal (@length R)) in E.
    rewrite length_map, M_pbh_length in E. discriminate E. }
  eapply evals_bind; [exact strains_module|].
  eapply evals_bind.
  { unfold evals, lift.
    rewrite (np_min_increasing _ Hne strains_increasing). reflexivity. }
  eapply evals_bind.
  { unfold evals, lift.
    rewrite (np_max_increasing _ Hne strains_increasing). reflexivity. }
  rewrite length_map, M_pbh_length.
  change (200 - 1)%nat with 199%nat.
  rewrite !strains_nth by lia.
  rewrite M_pbh_first, M_pbh_last.
  apply evals_ret.
Qed.

(** X9: the two numbers of the diagnostic printout of the script are
    5.212e-24 and 1.123e-20 when rounded to three decimals, the format of
    line 69. *)
Theorem reported_strain_range :
  exists lo hi,
    evals strain_range module_globals (lo, hi) /\
    5.2115e-24 <= lo < 5.2125e-24 /\
    1.1225e-20 <= hi < 1.1235e-20.
Proof.
  exists (default_strain 1e20), (default_strain 1e25).
  split; [exact strain_range_module|].
  pose proof default_strain_first. pose proof default_strain_last.
  split; split; lra.
Qed.

(** ** The levels drawn on the figure *)

Lemma Rpower_10_pow (e : R) (p q : nat) :
  e * INR q = INR p -> Rpower 10 e ^ q = 10 ^ p.
Proof.
  intros E. rewrite <- (Rpower_pow q) by apply Rpower_pos.
  rewrite Rpower_mult, E. apply Rpower_10_nat.
Qed.

Lemma Rpower_10_upper (x e : R) (p q : nat) :
  0 < x -> e * INR q = INR p -> 10 ^ p < x ^ q -> Rpower 10 e < x.
Proof.
  intros Hx E H. destruct (Rlt_le_dec (Rpower 10 e) x) as [L|L]; [exact L|].
  exfalso. assert (Hp : x ^ q <= Rpower 10 e ^ q) by (apply pow_incr; lra).
  rewrite (Rpower_10_pow e p q E) in Hp. lra.
Qed.

Lemma Rpower_10_lower (x e : R) (p q : nat) :
  0 < x -> e * INR q = INR p -> x ^ q < 10 ^ p -> x < Rpower 10 e.
Proof.
  intros Hx E H. destruct (Rlt_le_dec x (Rpower 10 e)) as [L|L]; [exact L|].
  exfalso. pose proof (Rpower_pos 10 e) as H0.
  assert (Hp : Rpower 10 e ^ q <= x ^ q) by (apply pow_incr; lra).
  rewrite (Rpower_10_pow e p q E) in Hp. lra.
Qed.

Lemma M_pbh_nth (i : nat) :
  (i < 200)%nat ->
  nth i (M_pbh module_globals) 0 = Rpower 10 (20 + INR i * (5 / 199)).
Proof.
  intros Hi. rewrite M_pbh_module, np_logspace_nth by lia.
  f_equal. unfold grid_exponent.
  replace (INR (200 - 1)) with 199 by (rewrite INR_IZR_INZ; reflexivity).
  lra.
Qed.

(** The strain of the script a factor [10 ** d] away from a mass. *)
Lemma default_strain_decades (m d : R) :
  0 < m ->
  default_strain (Rpower 10 d * m) = Rpower 10 (d * (2 / 3)) * default_strain m.
Proof.
  intros Hm. rewrite <- Rpower_mult.
  apply (state_strain_scale module_globals);
    [exact module_sweep_ready | apply Rpower_pos | exact Hm].
Qed.

Lemma M_pbh_from_first (i : nat) :
  (i < 200)%nat ->
  nth i (M_pbh module_globals) 0 = Rpower 10 (INR i * (5 / 199)) * 1e20.
Proof.
  intros Hi. rewrite M_pbh_nth by exact Hi.
  rewrite Rpower_plus, Rmult_comm. f_equal.
  replace 20 with (INR 20) by (rewrite INR_IZR_INZ; reflexivity).
  rewrite Rpower_10_nat. lra.
Qed.

Lemma M_pbh_from_last (i : nat) :
  (i < 200)%nat ->
  nth i (M_pbh module_globals) 0 =
  Rpower 10 (- (INR (199 - i) * (5 / 199))) * 1e25.
Proof.
  intros Hi. rewrite M_pbh_nth by exact Hi.
  replace (20 + INR i * (5 / 199))
    with (- (INR (199 - i) * (5 / 199)) + 25).
  - rewrite Rpower_plus. f_equal.
    replace 25 with (INR 25) by (rewrite INR_IZR_INZ; reflexivity).
    rewrite Rpower_10_nat. lra.
  - rewrite minus_INR by lia.
    replace (INR 199) with 199 by (rewrite INR_IZR_INZ; reflexivity). lra.
Qed.

Lemma strain_16 : default_strain (nth 16 (M_pbh module_globals) 0) < 1e-23.
Proof.
  rewrite M_pbh_from_first by lia.
  rewrite default_strain_decades by lra.
  assert (H : Rpower 10 (INR 16 * (5 / 199) * (2 / 3)) < 1.86).
  { apply (Rpower_10_upper _ _ 160 597); [lra | | lra].
    rewrite !INR_IZR_INZ. simpl Z.of_nat. lra. }
  pose proof (Rpower_pos 10 (INR 16 * (5 / 199) * (2 / 3))).
  pose proof default_strain_first. nra.
Qed.

Lemma strain_17 : 1e-23 < default_strain (nth 17 (M_pbh module_globals) 0).
Proof.
  rewrite M_pbh_from_first by lia.
  rewrite default_strain_decades by lra.
  assert (H : 1.92 < Rpower 10 (INR 17 * (5 / 199) * (2 / 3))).
  { apply (Rpower_10_lower _ _ 170 597); [lra | | lra].
    rewrite !INR_IZR_INZ. simpl Z.of_nat. lra. }
  pose proof default_strain_first. nra.
Qed.

Lemma strain_195 : default_strain (nth 195 (M_pbh module_globals) 0) < 1e-20.
Proof.
  rewrite M_pbh_from_last by lia.
  rewrite default_strain_decades by lra.
  change (199 - 195)%nat with 4%nat.
  replace (- (INR 4 * (5 / 199)) * (2 / 3))
    with (- (INR 4 * (5 / 199) * (2 / 3))) by lra.
  rewrite Rpower_Ropp.
  assert (H : 1.16 < Rpower 10 (INR 4 * (5 / 199) * (2 / 3))).
  { apply (Rpower_10_lower _ _ 40 597); [lra | | lra].
    rewrite !INR_IZR_INZ. simpl Z.of_nat. lra. }
  pose proof default_strain_last as [_ Hhi].
  set (y := Rpower 10 _) in *. clearbody y.
  set (h := default_strain 1e25) in *. clearbody h.
  apply (Rmult_lt_reg_r y); [lra|].
  rewrite Rmult_comm, <- Rmult_assoc, Rinv_r by lra. nra.
Qed.

Lemma strain_196 : 1e-20 < default_strain (nth 196 (M_pbh module_globals) 0).
Proof.
  rewrite M_pbh_from_last by lia.
  rewrite default_strain_decades by lra.
  change (199 - 196)%nat with 3%nat.
  replace (- (INR 3 * (5 / 199)) * (2 / 3))
    with (- (INR 3 * (5 / 199) * (2 / 3))) by lra.
  rewrite Rpower_Ropp.
  assert (H : Rpower 10 (INR 3 * (5 / 199) * (2 / 3)) < 1.1228).
  { apply (Rpower_10_upper _ _ 10 199); [lra | | lra].
    rewrite !INR_IZR_INZ. simpl Z.of_nat. lra. }
  pose proof (Rpower_pos 10 (INR 3 * (5 / 199) * (2 / 3))) as Hy.
  pose proof default_strain_last as [Hlo _].
  set (y := Rpower 10 _) in *. clearbody y.
  set (h := default_strain 1e25) in *. clearbody h.
  apply (Rmult_lt_reg_r y); [lra|].
  rewrite (Rmult_comm (/ y)), Rmult_assoc, Rinv_l by lra. nra.
Qed.

Lemma strains_monotone (i j : nat) :
  (i <= j)%nat -> (j < 200)%nat ->
  default_strain (nth i (M_pbh module_globals) 0) <=
  default_strain (nth j (M_pbh module_globals) 0).
Proof.
  intros Hij Hj. destruct (Nat.eq_dec i j) as [->|Hne]; [lra|].
  left. rewrite <- !strains_nth by lia.
  apply strains_increasing; rewrite ?length_map, ?M_pbh_length; lia.
Qed.

(** X10: all 200 points handed to the log-log plot have a positive mass; the
    strain is at or above the sensitivity line 1e-23 exactly from the grid
    index 17 on, no strain is at or below the lower limit 1e-25 of the strain
    axis, and exactly the four strains of index 196 to 199 are above its upper
    limit 1e-20. *)
Theorem plotted_levels :
  exists ss,
    evals strains module_globals ss /\
    forall i, (i < 200)%nat ->
      0 < nth i (M_pbh module_globals) 0 /\
      (sensitivity <= nth i ss 0 <-> (17 <= i)%nat) /\
      fst ylim < nth i ss 0 /\
      (snd ylim < nth i ss 0 <-> (196 <= i)%nat).
Proof.
  exists (map default_strain (M_pbh module_globals)).
  split; [exact strains_module|].
  intros i Hi. rewrite strains_nth by exact Hi.
  unfold sensitivity, ylim. cbn [fst snd].
  pose proof strain_16 as H16. pose proof strain_17 as H17.
  pose proof strain_195 as H195. pose proof strain_196 as H196.
  split; [now apply M_pbh_positive|]. split; [|split].
  - split.
    + intros H. destruct (Nat.le_gt_cases 17 i) as [L|L]; [exact L|].
      exfalso. assert (Hm := strains_monotone i 16 ltac:(lia) ltac:(lia)). lra.
    + intros L. assert (Hm := strains_monotone 17 i L Hi). lra.
  - assert (Hm := strains_monotone 0 i ltac:(lia) Hi).
    rewrite M_pbh_first in Hm. pose proof default_strain_first. lra.
  - split.
    + intros H. destruct (Nat.le_gt_cases 196 i) as [L|L]; [exact L|].
      exfalso. assert (Hm := strains_monotone i 195 ltac:(lia) ltac:(lia)). lra.
    + intros L. assert (Hm := strains_monotone 196 i L Hi). lra.
Qed.

(** ** The grid constructor on any bounds and count *)

Lemma np_linspace_length (start stop : R) (num : nat) :
  length (np_linspace start stop num) = num.
Proof.
  destruct (Nat.ltb_spec 1 num) as [H|H].
  - rewrite np_linspace_samples by exact H. now rewrite length_map, length_seq.
  - unfold np_linspace.
    destruct (Nat.ltb_spec 1 num) as [H'|_]; [lia|].
    destruct (0 <? num - 1)%nat; now rewrite !length_map, length_seq.
Qed.

Lemma grid_exponent_decreasing (start stop : R) (num i j : nat) :
  (1 < num)%nat -> stop < start -> (i < j)%nat ->
  grid_exponent start stop num j < grid_exponent start stop num i.
Proof.
  intros Hn Hs Hij. unfold grid_exponent.
  assert (Hd : 0 < INR (num - 1)) by (apply lt_0_INR; lia).
  assert (Hq : 0 < (start - stop) / INR (num - 1))
    by (apply Rdiv_lt_0_compat; lra).
  replace ((stop - start) / INR (num - 1))
    with (- ((start - stop) / INR (num - 1))) by (field; lra).
  apply lt_INR in Hij. nra.
Qed.

(** X11: [np.logspace(start, stop, num)] has [num] values, all positive; one
    value, [10 ** start], for [num = 1]; and for [num > 1] it starts at
    [10 ** start], ends at [10 ** stop] and is strictly increasing when
    [start < stop], strictly decreasing when [stop < start]. *)
Theorem np_logspace_shape (start stop : R) (num : nat) :
  length (np_logspace start stop num) = num /\
  Forall (fun m => 0 < m) (np_logspace start stop num) /\
  (num = 1%nat -> np_logspace start stop num = [Rpower 10 start]) /\
  ((1 < num)%nat ->
     nth 0 (np_logspace start stop num) 0 = Rpower 10 start /\
     nth (num - 1) (np_logspace start stop num) 0 = Rpower 10 stop /\
     (start < stop -> strictly_increasing (np_logspace start stop num)) /\
     (stop < start -> strictly_decreasing (np_logspace start stop num))).
Proof.
  split; [|split; [|split]].
  - unfold np_logspace. now rewrite length_map, np_linspace_length.
  - apply Forall_forall. intros m Hm. unfold np_logspace in Hm.
    apply in_map_iff in Hm. destruct Hm as (y & <- & _). apply Rpower_pos.
  - intros ->. unfold np_logspace, np_linspace. cbn. f_equal. f_equal. lra.
  - intros Hn. split; [now apply np_logspace_first|].
    split; [now apply np_logspace_last|]. split.
    + intros Hs. now apply np_logspace_increasing.
    + intros Hs. unfold strictly_decreasing, decreasing_between.
      rewrite np_logspace_length by exact Hn. intros i j _ Hij Hj.
      rewrite !np_logspace_nth by lia.
      apply Rpower_lt; [lra|]. now apply grid_exponent_decreasing.
Qed.
